(** * navi-rpi: the obstacle/depth pipeline of [obstacle_depth.py]

    A shallow embedding of the per-frame pipeline of [main] in
    [src/obstacle_depth.py]: the depth preprocessing, the per-box distance
    estimate, the alert branches, the loop over detections and the camera
    life cycle around it.

    Numbers.  Depth samples, distances and box coordinates are Python/NumPy
    floats in the source.  They are read here as the rationals they denote
    ([Q]) and NumPy's arithmetic is taken as exact: rounding, NaN and
    infinities are outside the model.  Confidence samples and class ids are
    integers ([Z]).

    Libraries.  [np.percentile], [np.median], [np.clip], slicing and boolean
    indexing are modelled from NumPy's documented behaviour (linear
    interpolation for the percentile).  OpenCV's median filter and colour
    map, the detector and its plotting routine stay abstract: they are
    Section variables of the part that runs a whole frame.

    Line 167 of the source ends in a stray token [s]; the statement is read
    as [depth_norm = cv2.medianBlur(depth_norm, 5)]. *)

From Stdlib Require Import ZArith QArith Qround Lqa String Sorted.
From stdpp Require Import base list pretty.

Open Scope Z_scope.

(** ** Python values and errors *)

Inductive exn :=
  | TypeError            (* an ordering comparison with [None] *)
  | ZeroDivisionError    (* [255.0 / MAX_MM] with [MAX_MM = 0] *)
  | KeyboardInterrupt
  | LookupError.         (* a name bound to no array: never raised by [main] *)

Inductive outcome (A : Type) :=
  | Ok (a : A)
  | Raise (e : exn).
Arguments Ok {A} a.
Arguments Raise {A} e.

Definition obind {A B} (m : outcome A) (k : A -> outcome B) : outcome B :=
  match m with
  | Ok a => k a
  | Raise e => Raise e
  end.

Notation "x <-? m ; k" := (obind m (fun x => k))
  (at level 20, m at level 100, k at level 200, only parsing).

(** [int(x)] on a float: truncation towards zero. *)
Definition py_int (q : Q) : Z := Z.quot (Qnum q) (Zpos (Qden q)).

Definition Qltb (x y : Q) : bool := negb (Qle_bool y x).

(** [d < b] and [d >= b] where [d] may be [None]: Python 3 raises
    [TypeError] when an operand of an ordering comparison is [None]. *)
Definition py_lt (d : option Q) (b : Q) : outcome bool :=
  match d with
  | Some x => Ok (Qltb x b)
  | None => Raise TypeError
  end.

Definition py_ge (d : option Q) (b : Q) : outcome bool :=
  match d with
  | Some x => Ok (Qle_bool b x)
  | None => Raise TypeError
  end.

(** [a and b]: [b] is evaluated only when [a] is true. *)
Definition py_and (a : outcome bool) (b : outcome bool) : outcome bool :=
  x <-? a ; if x then b else Ok false.

(** [f"{x:.0f}"]: the nearest integer, ties to even, in decimal; a negative
    value that rounds to zero keeps its sign. *)
Definition round_half_even (q : Q) : Z :=
  let f := Qfloor q in
  match Qcompare (q - inject_Z f) (1 # 2) with
  | Lt => f
  | Gt => f + 1
  | Eq => if Z.even f then f else f + 1
  end.

Definition format_0f (q : Q) : string :=
  let n := round_half_even q in
  if Qltb q 0 && (n =? 0) then "-0"%string else pretty n.

(** ** The alert branches (source lines 231-246) *)

Inductive AlertTier := TierNone | PersonWarning | ObstacleWarning | CriticalStop.

(** The conditions of the [if]/[elif] chain, in the order of the source:
    the person band, then the obstacle band, then the stop band. *)
Definition classify (cls_id : Z) (dist_cm : option Q) : outcome AlertTier :=
  person <-? py_and (Ok (cls_id =? 0))
               (py_and (py_lt dist_cm 250) (py_ge dist_cm 130)) ;
  if person then Ok PersonWarning else
  obstacle <-? py_and (Ok (negb (cls_id =? 0)))
                 (py_and (py_lt dist_cm 150) (py_ge dist_cm 45)) ;
  if obstacle then Ok ObstacleWarning else
  stop <-? py_lt dist_cm 45 ;
  if stop then Ok CriticalStop else Ok TierNone.

(** What a frame cycle does to the outside world. *)
Inductive event :=
  | PrintLine (s : string)                 (* a fixed line on stdout *)
  | PrintCode (s : string) (code : Z)      (* [print(s, code)] *)
  | PrintClsId (cls_id : Z)
  | PrintDistance (who : string) (d : Q)   (* "Person distance: ..." *)
  | PrintSummary (cls_id : Z) (conf_det : Q) (d : option Q)
  | Espeak (text : string)                 (* [say]: the espeak-ng subprocess *)
  | EngineSay (text : string)              (* [engine.say] *)
  | EngineRunAndWait
  | CamClose
  | CamStop
  | CamSetControl (ctl : string) (v : Z)
  | CamReleaseFrame
  | CreateTrackbar
  | ImWrite (file : string)
  | DrawRectangle
  | OutWrite
  | OutRelease.

Definition person_text (d : Q) : string :=
  ("Person ahead at " ++ format_0f d ++ " centimeters")%string.
Definition obstacle_text (d : Q) : string :=
  ("Obstacle detected ahead at distance " ++ format_0f d ++ " centimeters")%string.
Definition stop_text : string := "Stop, obstacle very close".

(** The body of the branch taken.  A branch other than [TierNone] is only
    reached with a distance; [0] stands in where there is none. *)
Definition alert_events (t : AlertTier) (dist_cm : option Q) : list event :=
  let d := default 0%Q dist_cm in
  match t with
  | PersonWarning => [PrintDistance "Person" d; Espeak (person_text d)]
  | ObstacleWarning =>
      [PrintDistance "Obstacle" d; EngineSay (obstacle_text d); EngineRunAndWait]
  | CriticalStop => [PrintLine " stop stop "; EngineSay stop_text; EngineRunAndWait]
  | TierNone => []
  end.

(** The text handed to a speech sink by an event, if any. *)
Definition spoken (e : event) : option string :=
  match e with
  | Espeak s | EngineSay s => Some s
  | _ => None
  end.

Definition alerts (tr : list event) : list string := omap spoken tr.

(** ** The tier table of the specification, stop band first *)

Definition classify_table (cls_id : Z) (d : Q) : AlertTier :=
  if Qltb d 45 then CriticalStop
  else if (cls_id =? 0) && Qle_bool 130 d && Qltb d 250 then PersonWarning
  else if negb (cls_id =? 0) && Qle_bool 45 d && Qltb d 150 then ObstacleWarning
  else TierNone.

(** ** NumPy: arrays, slices, order statistics *)

Abbreviation matrix A := (list (list A)).

(** [a.shape] of a 2-d array, as [(H, W)]. *)
Definition shape {A} (m : matrix A) : Z * Z :=
  (Z.of_nat (length m), Z.of_nat (length (hd [] m))).

(** A slice bound against a length: negative bounds count from the end. *)
Definition slice_bound (len : nat) (i : Z) : nat :=
  Z.to_nat (if i <? 0 then Z.max 0 (i + Z.of_nat len) else Z.min i (Z.of_nat len)).

(** [l[lo:hi]] *)
Definition slice {A} (lo hi : Z) (l : list A) : list A :=
  let a := slice_bound (length l) lo in
  let b := slice_bound (length l) hi in
  take (b - a)%nat (drop a l).

(** [m[y1:y2, x1:x2]] *)
Definition slice2 {A} (y1 y2 x1 x2 : Z) (m : matrix A) : matrix A :=
  map (slice x1 x2) (slice y1 y2 m).

(** [a[mask]] on one row, and on a matrix in row-major order. *)
Definition select_row {A} (row : list A) (mask : list bool) : list A :=
  map fst (List.filter snd (zip row mask)).

Definition select {A} (m : matrix A) (mask : matrix bool) : list A :=
  concat (zip_with select_row m mask).

Fixpoint insert_sorted (x : Q) (l : list Q) : list Q :=
  match l with
  | [] => [x]
  | y :: l' => if Qle_bool x y then x :: l else y :: insert_sorted x l'
  end.

Definition np_sort (l : list Q) : list Q := foldr insert_sorted [] l.

Definition clipZ (lo hi v : Z) : Z := Z.max lo (Z.min hi v).

(** [np.percentile(a, q)] with the default method: the virtual index
    [(n-1) * q/100] is split into its floor and its fractional part
    [gamma]; the result interpolates linearly between the two neighbouring
    order statistics. *)
Definition np_percentile (a : list Q) (q : Q) : Q :=
  let s := np_sort a in
  let n := Z.of_nat (length a) in
  let virt := (inject_Z (n - 1) * (q / 100))%Q in
  let prev := Qfloor virt in
  let gamma := (virt - inject_Z prev)%Q in
  let lo := nth (Z.to_nat (clipZ 0 (n - 1) prev)) s 0%Q in
  let hi := nth (Z.to_nat (clipZ 0 (n - 1) (prev + 1))) s 0%Q in
  (lo + (hi - lo) * gamma)%Q.

(** [np.median(a)]: the middle order statistic, or the mean of the two
    middle ones. *)
Definition np_median (a : list Q) : Q :=
  let s := np_sort a in
  let n := length a in
  if Nat.even n
  then ((nth (n / 2 - 1)%nat s 0 + nth (n / 2)%nat s 0) / 2)%Q
  else nth (n / 2)%nat s 0%Q.

(** ** The distance estimate (source lines 202-225) *)

Definition CONF_THR : Z := 30.
Definition MARGIN_MM : Z := 250.

(** [mask = (roi_d > 0) & (roi_c >= CONF_THR)] *)
Definition valid_px (conf_thr : Z) (d : Q) (c : Z) : bool :=
  Qltb 0 d && (conf_thr <=? c).

Definition roi_mask (conf_thr : Z) (roi_d : matrix Q) (roi_c : matrix Z) : matrix bool :=
  zip_with (zip_with (valid_px conf_thr)) roi_d roi_c.

(** [valid = roi_d[mask]] *)
Definition roi_valid (conf_thr : Z) (roi_d : matrix Q) (roi_c : matrix Z) : list Q :=
  select roi_d (roi_mask conf_thr roi_d roi_c).

(** Lines 209-225, from [valid] to [dist_cm]. *)
Definition dist_cm_of (margin_mm : Z) (valid : list Q) : option Q :=
  if (length valid =? 0)%nat then None
  else
    let d_min := np_percentile valid 5 in
    let obj_depths :=
      List.filter (fun v => Qle_bool v (d_min + inject_Z margin_mm)) valid in
    let dist_mm :=
      if (length obj_depths =? 0)%nat then d_min else np_median obj_depths in
    Some (dist_mm * (1 # 10))%Q.

(** The estimate for a box already clamped: lines 202-225. *)
Definition estimate (conf_thr margin_mm : Z) (depth_buf : matrix Q)
    (confidence_buf : matrix Z) (x1 y1 x2 y2 : Z) : option Q :=
  let roi_d := slice2 y1 y2 x1 x2 depth_buf in
  let roi_c := slice2 y1 y2 x1 x2 confidence_buf in
  dist_cm_of margin_mm (roi_valid conf_thr roi_d roi_c).

(** ** Detections and the clamp (lines 190-199) *)

Record detection := {
  xyxy : Q * Q * Q * Q;    (* [box.xyxy[0]] *)
  cls : Q;                 (* [box.cls[0]] *)
  conf : Q                 (* [box.conf[0]] *)
}.

(** [max(0, min(N - 1, v))] *)
Definition clamp (N v : Z) : Z := Z.max 0 (Z.min (N - 1) v).

Definition clamp_box (H W : Z) (b : detection) : Z * Z * Z * Z :=
  let '(x1, y1, x2, y2) := xyxy b in
  (clamp W (py_int x1), clamp H (py_int y1),
   clamp W (py_int x2), clamp H (py_int y2)).

(** [x2 <= x1 or y2 <= y1] *)
Definition degenerate (bx : Z * Z * Z * Z) : bool :=
  let '(x1, y1, x2, y2) := bx in (x2 <=? x1) || (y2 <=? y1).

(** ** The estimate in the specification's words

    The valid set of a box, pixel by pixel: every pixel of rows [y1 .. y2-1]
    and columns [x1 .. x2-1] whose depth is positive and whose confidence
    reaches the threshold. *)

Definition pixel {A} (m : matrix A) (r c : nat) : option A :=
  row ← m !! r; row !! c.

Definition valid_at (conf_thr : Z) (depth_buf : matrix Q) (confidence_buf : matrix Z)
    (r c : nat) : Prop :=
  exists d k, pixel depth_buf r c = Some d /\ pixel confidence_buf r c = Some k /\
              (0 < d)%Q /\ conf_thr <= k.

Definition in_box (x1 y1 x2 y2 : Z) (r c : nat) : Prop :=
  y1 <= Z.of_nat r < y2 /\ x1 <= Z.of_nat c < x2.

(** The depth of pixel [(r, c)] if it is valid. *)
Definition valid_depth (conf_thr : Z) (depth_buf : matrix Q) (confidence_buf : matrix Z)
    (r c : nat) : option Q :=
  match pixel depth_buf r c, pixel confidence_buf r c with
  | Some d, Some k => if valid_px conf_thr d k then Some d else None
  | _, _ => None
  end.

(** The valid depths of the box, enumerated row by row and column by
    column over its pixel coordinates. *)
Definition spec_valid (conf_thr : Z) (depth_buf : matrix Q) (confidence_buf : matrix Z)
    (x1 y1 x2 y2 : Z) : list Q :=
  flat_map
    (fun r => omap (valid_depth conf_thr depth_buf confidence_buf r)
                (seq (Z.to_nat x1) (Z.to_nat x2 - Z.to_nat x1)))
    (seq (Z.to_nat y1) (Z.to_nat y2 - Z.to_nat y1)).

(** The valid entries of one pair of rows, and of one row index, as the
    boolean indexing of the code visits them. *)
Definition row_pick (f : Q -> Z -> bool) (rd : list Q) (rc : list Z) (c : nat)
    : option Q :=
  match rd !! c, rc !! c with
  | Some d, Some k => if f d k then Some d else None
  | _, _ => None
  end.

Definition rows_pick (conf_thr : Z) (D : matrix Q) (C : matrix Z) (x1 x2 : Z)
    (r : nat) : list Q :=
  match D !! r, C !! r with
  | Some rd, Some rc =>
      omap (row_pick (valid_px conf_thr) rd rc)
        (seq (Z.to_nat x1) (Z.to_nat x2 - Z.to_nat x1))
  | _, _ => []
  end.

(** The cluster of the specification and the value it prescribes. *)
Definition cluster (margin_mm : Z) (valid : list Q) : list Q :=
  let d_min := np_percentile valid 5 in
  List.filter (fun v => Qle_bool v (d_min + inject_Z margin_mm)) valid.

Definition spec_distance_cm (margin_mm : Z) (valid : list Q) : Q :=
  let d_min := np_percentile valid 5 in
  match cluster margin_mm valid with
  | [] => (d_min * (1 # 10))%Q
  | _ :: _ => (np_median (cluster margin_mm valid) * (1 # 10))%Q
  end.
(** ** The state of a run: the arrays alive and what was output

    Python names hold references to arrays.  The heap maps a location to
    the array stored there; [copy], [astype] and the functions that return
    a result allocate, an indexed assignment writes in place. *)

Definition loc := nat.
Definition bgr : Type := Z * Z * Z.

Inductive ndarray :=
  | ArrF (m : matrix Q)       (* float samples *)
  | ArrI (m : matrix Z)       (* integer samples: the confidence, uint8 images *)
  | ArrBGR (m : matrix bgr).  (* three-channel uint8 images *)

Record world := { heap : list ndarray; out : list event }.

Inductive res (A : Type) :=
  | Done (a : A) (w : world)
  | Fail (e : exn) (w : world).
Arguments Done {A} a w.
Arguments Fail {A} e w.

Definition M (A : Type) : Type := world -> res A.

Definition ret {A} (a : A) : M A := fun w => Done a w.

Definition bind {A B} (m : M A) (k : A -> M B) : M B :=
  fun w => match m w with
           | Done a w' => k a w'
           | Fail e w' => Fail e w'
           end.

Definition throw {A} (e : exn) : M A := fun w => Fail e w.

Notation "'let!' x ':=' m 'in' k" := (bind m (fun x => k))
  (at level 10, x pattern, m at level 100, k at level 200, only parsing).
Notation "m ';;' k" := (bind m (fun _ => k))
  (at level 100, k at level 200, right associativity, only parsing).

Definition lift {A} (o : outcome A) : M A :=
  match o with
  | Ok a => ret a
  | Raise e => throw e
  end.

Definition emit (e : event) : M unit :=
  fun w => Done tt {| heap := heap w; out := out w ++ [e] |}.

Definition emits (es : list event) : M unit :=
  fun w => Done tt {| heap := heap w; out := out w ++ es |}.

(** [try: m  except <handled>: h] *)
Definition try_except {A} (m : M A) (h : exn -> option (M A)) : M A :=
  fun w => match m w with
           | Done a w' => Done a w'
           | Fail e w' => match h e with
                          | Some k => k w'
                          | None => Fail e w'
                          end
           end.

Fixpoint for_each {A} (l : list A) (body : A -> M unit) : M unit :=
  match l with
  | [] => ret tt
  | x :: l' => body x ;; for_each l' body
  end.

Definition alloc (a : ndarray) : M loc :=
  fun w => Done (length (heap w)) {| heap := heap w ++ [a]; out := out w |}.

(** The world after one more allocation. *)
Definition grow (w : world) (a : ndarray) : world :=
  {| heap := heap w ++ [a]; out := out w |}.

Definition load (l : loc) : M ndarray :=
  fun w => match heap w !! l with
           | Some a => Done a w
           | None => Fail LookupError w
           end.

Definition store (l : loc) (a : ndarray) : M unit :=
  fun w => Done tt {| heap := <[l := a]> (heap w); out := out w |}.

Definition loadF (l : loc) : M (matrix Q) :=
  let! a := load l in
  match a with ArrF m => ret m | _ => throw LookupError end.

Definition loadI (l : loc) : M (matrix Z) :=
  let! a := load l in
  match a with ArrI m => ret m | _ => throw LookupError end.

Definition loadBGR (l : loc) : M (matrix bgr) :=
  let! a := load l in
  match a with ArrBGR m => ret m | _ => throw LookupError end.

(** [a.copy()] *)
Definition np_copy (l : loc) : M loc :=
  let! a := load l in alloc a.

Definition to_float (m : matrix Z) : matrix Q := map (map inject_Z) m.

(** [a.astype(np.float32)] *)
Definition astype_f32 (l : loc) : M loc :=
  let! a := load l in
  match a with
  | ArrF m => alloc (ArrF m)
  | ArrI m => alloc (ArrF (to_float m))
  | ArrBGR _ => throw LookupError
  end.

(** ** The preprocessing (source lines 150-178) *)

(** One row of [a[mask] = v]: the entries under a true mask bit become [v]. *)
Fixpoint set_where_row (v : Q) (row : list Q) (mask : list bool) : list Q :=
  match row, mask with
  | x :: row', b :: mask' => (if b then v else x) :: set_where_row v row' mask'
  | _, _ => row
  end.

Fixpoint set_where (v : Q) (m : matrix Q) (mask : matrix bool) : matrix Q :=
  match m, mask with
  | row :: m', mrow :: mask' => set_where_row v row mrow :: set_where v m' mask'
  | _, _ => m
  end.

(** [conf < thr], element by element *)
Definition lt_mask (thr : Z) (conf : matrix Q) : matrix bool :=
  map (map (fun k => Qltb k (inject_Z thr))) conf.

(** [depth[conf < thr] = 0], in place *)
Definition zero_low_confidence (depth conf : loc) (thr : Z) : M unit :=
  let! d := loadF depth in
  let! c := loadF conf in
  store depth (ArrF (set_where 0%Q d (lt_mask thr c))).

Definition qmax (a b : Q) : Q := if Qle_bool a b then b else a.
Definition qmin (a b : Q) : Q := if Qle_bool a b then a else b.

Definition clip_all (lo hi : Q) (d : matrix Q) : matrix Q :=
  map (map (fun x => qmin (qmax x lo) hi)) d.

(** [np.clip(a, lo, hi)]: [minimum(maximum(a, lo), hi)] *)
Definition np_clip (l : loc) (lo hi : Q) : M loc :=
  let! d := loadF l in
  alloc (ArrF (clip_all lo hi d)).

(** [255.0 / MAX_MM] *)
Definition py_div (a : Q) (b : Z) : outcome Q :=
  if b =? 0 then Raise ZeroDivisionError else Ok (a / inject_Z b)%Q.

(** [x.astype(np.uint8)] on one sample *)
Definition to_u8 (q : Q) : Z := (py_int q) mod 256.

Definition scale_all (k : Q) (d : matrix Q) : matrix Z :=
  map (map (fun x => to_u8 (x * k))) d.

(** [(depth * k).astype(np.uint8)] *)
Definition scale_u8 (l : loc) (k : Q) : M loc :=
  let! d := loadF l in
  alloc (ArrI (scale_all k d)).

Definition ge_all (thr : Z) (c : matrix Q) : matrix Z :=
  map (map (fun k => if Qle_bool (inject_Z thr) k then 1 else 0)) c.

(** [(conf >= thr).astype(np.uint8)] *)
Definition ge_mask_u8 (l : loc) (thr : Z) : M loc :=
  let! c := loadF l in
  alloc (ArrI (ge_all thr c)).

Definition gray3 (m : matrix Z) : matrix bgr :=
  map (map (fun v => let g := (v * 255) mod 256 in (g, g, g))) m.

(** [cv2.cvtColor(mask * 255, cv2.COLOR_GRAY2BGR)] *)
Definition gray2bgr_255 (l : loc) : M loc :=
  let! m := loadI l in
  alloc (ArrBGR (gray3 m)).

Definition and_px (p q : bgr) : bgr :=
  let '(b1, g1, r1) := p in
  let '(b2, g2, r2) := q in
  (Z.land b1 b2, Z.land g1 g2, Z.land r1 r2).

(** [cv2.bitwise_and(a, b)] *)
Definition bitwise_and (la lb : loc) : M loc :=
  let! a := loadBGR la in
  let! b := loadBGR lb in
  alloc (ArrBGR (zip_with (zip_with and_px) a b)).

(** The depth matrix after the confidence gate of line 158, and the
    validity mask of line 173, as functions of the frame. *)
Definition gated (thr : Z) (D : matrix Q) (C : matrix Z) : matrix Q :=
  set_where 0%Q D (lt_mask thr (to_float C)).

Definition conf_mask (thr : Z) (C : matrix Z) : matrix Z :=
  ge_all thr (to_float C).

(** Two depth matrices that differ only under low confidence. *)
Definition same_off_low (thr : Z) (D D' : matrix Q) (C : matrix Z) : Prop :=
  Forall3 (Forall3 (fun d d' k => d = d' \/ k < thr)) D D' C.

Section Pipeline.

(** OpenCV and the detector, left abstract. *)
Variable medianBlur5 : matrix Z -> matrix Z.
Variable applyColorMap : matrix Z -> matrix bgr.
Variable rectangle : matrix bgr -> matrix bgr.
Variable detect : matrix bgr -> list detection.
Variable plot : matrix bgr -> list detection -> matrix bgr.

Definition median_blur (l : loc) : M loc :=
  let! m := loadI l in alloc (ArrI (medianBlur5 m)).

Definition color_map (l : loc) : M loc :=
  let! m := loadI l in alloc (ArrBGR (applyColorMap m)).

(** [result_image] as a function of the frame and the range setting. *)
Definition visual (D : matrix Q) (C : matrix Z) (r : Z) : matrix bgr :=
  let depth := clip_all 0 (inject_Z r) (gated CONF_THR D C) in
  let depth_norm := medianBlur5 (scale_all (255 / inject_Z r) depth) in
  let mask := medianBlur5 (conf_mask CONF_THR C) in
  zip_with (zip_with and_px) (applyColorMap depth_norm) (gray3 mask).

(** The arrays the preprocessing leaves behind, in allocation order. *)
Definition preprocess_arrays (D : matrix Q) (C : matrix Z) (r : Z) : list ndarray :=
  let depth := clip_all 0 (inject_Z r) (gated CONF_THR D C) in
  let depth_norm := scale_all (255 / inject_Z r) depth in
  let mask := conf_mask CONF_THR C in
  [ ArrF D; ArrF (gated CONF_THR D C); ArrI C; ArrF (to_float C);
    ArrF depth; ArrI depth_norm; ArrI (medianBlur5 depth_norm);
    ArrBGR (applyColorMap (medianBlur5 depth_norm));
    ArrI mask; ArrI (medianBlur5 mask); ArrBGR (gray3 (medianBlur5 mask));
    ArrBGR (visual D C r) ].

(** Lines 150-178: from the frame's buffers to [result_image]. *)
Definition preprocess (depth_buf confidence_buf : loc) (r : Z) : M loc :=
  let MAX_MM := r in
  let! d0 := np_copy depth_buf in
  let! depth := astype_f32 d0 in
  let! c0 := np_copy confidence_buf in
  let! conf := astype_f32 c0 in
  zero_low_confidence depth conf CONF_THR ;;
  let! depth := np_clip depth 0 (inject_Z MAX_MM) in
  let! k := lift (py_div 255 MAX_MM) in
  let! depth_norm := scale_u8 depth k in
  let! depth_norm := median_blur depth_norm in
  let! result_image := color_map depth_norm in
  let! mask := ge_mask_u8 conf CONF_THR in
  let! mask := median_blur mask in
  let! mask_3 := gray2bgr_255 mask in
  bitwise_and result_image mask_3.

(** Lines 202-225 on the frame's buffers: [roi_d] is a fresh array made
    by [astype], [roi_c] is a view of the confidence buffer. *)
Definition estimate_box (depth_buf confidence_buf : loc) (x1 y1 x2 y2 : Z)
    : M (option Q) :=
  let! d := loadF depth_buf in
  let! roi := alloc (ArrF (slice2 y1 y2 x1 x2 d)) in
  let! roi_d := loadF roi in
  let! c := loadI confidence_buf in
  let roi_c := slice2 y1 y2 x1 x2 c in
  ret (dist_cm_of MARGIN_MM (roi_valid CONF_THR roi_d roi_c)).

(** The body of [for box in results[0].boxes] (lines 190-247). *)
Definition box_body (depth_buf confidence_buf : loc) (H W : Z) (b : detection)
    : M unit :=
  let '(x1, y1, x2, y2) := clamp_box H W b in
  if degenerate (x1, y1, x2, y2) then ret tt   (* continue *)
  else
    let! dist_cm := estimate_box depth_buf confidence_buf x1 y1 x2 y2 in
    let cls_id := py_int (cls b) in
    emit (PrintClsId cls_id) ;;
    let conf_det := conf b in
    let! tier := lift (classify cls_id dist_cm) in
    emits (alert_events tier dist_cm) ;;
    emit (PrintSummary cls_id conf_det dist_cm).

(** The block run on a frame (lines 139-266).  [selectRect] is never
    written (no mouse callback is installed), so the branch of line 258 is
    not taken; OpenCV, the detector and the video writer are taken to
    succeed. *)
Definition frame_body (r : Z) (depth_buf confidence_buf : loc) : M unit :=
  let! result_image := preprocess depth_buf confidence_buf r in
  let! d := loadF depth_buf in
  let '(H, W) := shape d in
  let! img := loadBGR result_image in
  let boxes := detect img in
  let! annotated_frame := alloc (ArrBGR (plot img boxes)) in
  for_each boxes (box_body depth_buf confidence_buf H W) ;;
  (if (0 <? length boxes)%nat then emit (ImWrite "detections.jpg") else ret tt) ;;
  let! img := loadBGR result_image in
  store result_image (ArrBGR (rectangle img)) ;;
  emit DrawRectangle ;;
  emit OutWrite ;;
  emit CamReleaseFrame.

(** ** The run: camera life cycle and the loop (lines 85-283) *)

Inductive key_input := Key (k : Z) | CtrlC.

(** One turn of [while True]: what [requestFrame] hands over and what
    [waitKey] sees (or an interrupt arriving there). *)
Record cycle := {
  frame : option (matrix Q * matrix Z);
  key : key_input
}.

Record env := {
  open_ret : Z;       (* [cam.open] *)
  start_ret : Z;      (* [cam.start] *)
  range : Z;          (* [cam.getControl(RANGE)] *)
  vga : bool;         (* [info.device_type == VGA] *)
  cycles : list cycle
}.

Definition request_frame (c : cycle) : M (option (loc * loc)) :=
  match frame c with
  | None => ret None
  | Some (d, k) =>
      let! ld := alloc (ArrF d) in
      let! lc := alloc (ArrI k) in
      ret (Some (ld, lc))
  end.

Definition wait_key (c : cycle) : M Z :=
  match key c with
  | Key k => ret k
  | CtrlC => throw KeyboardInterrupt
  end.

Definition ord_q : Z := 113.

(** [while True]: [true] once [break] is reached, [false] when the
    environment has no further turn to offer and the loop is still on. *)
Fixpoint loop (r : Z) (cs : list cycle) : M bool :=
  match cs with
  | [] => ret false
  | c :: cs' =>
      let! f := request_frame c in
      match f with
      | Some (ld, lc) => frame_body r ld lc
      | None => ret tt
      end ;;
      let! k := wait_key c in
      if k =? ord_q then ret true else loop r cs'
  end.

Definition shutdown : M unit :=
  emit CamStop ;; emit CamClose ;; emit OutRelease.

(** [main]: [true] when the function returns, [false] when it is still
    looping at the end of the environment's script.  Creating the video
    writer and loading the detector's weights leave no trace here. *)
Definition main (e : env) : M bool :=
  emit (PrintLine "Arducam Depth Camera Demo.") ;;
  emit (PrintLine "  SDK version:") ;;
  let ret_ := open_ret e in
  if negb (ret_ =? 0) then
    emit (PrintCode "Failed to open camera. Error code:" ret_) ;;
    ret true
  else
  let ret_ := start_ret e in
  if negb (ret_ =? 0) then
    emit (PrintCode "Failed to start camera. Error code:" ret_) ;;
    emit CamClose ;;
    ret true
  else
    emit (CamSetControl "RANGE" 4000) ;;
    emit (CamSetControl "EXPOSURE" 2000) ;;
    let r := range e in
    emit (PrintLine "Camera resolution:") ;;
    (if vga e then emit CreateTrackbar else ret tt) ;;
    emit (PrintLine "Starting preview... Press 'q' to quit.") ;;
    try_except
      (let! quit := loop r (cycles e) in
       if quit then shutdown ;; ret true else ret false)
      (fun ex => match ex with
                 | KeyboardInterrupt =>
                     Some (shutdown ;; emit (PrintLine "Exiting...") ;; ret true)
                 | _ => None
                 end).

(** What [main] has output when it returns early or enters the loop. *)
Definition banner : list event :=
  [PrintLine "Arducam Depth Camera Demo."; PrintLine "  SDK version:"].

Definition started_output (e : env) : list event :=
  banner ++
  [CamSetControl "RANGE" 4000; CamSetControl "EXPOSURE" 2000;
   PrintLine "Camera resolution:"] ++
  (if vga e then [CreateTrackbar] else []) ++
  [PrintLine "Starting preview... Press 'q' to quit."].

(** The world in which the loop is entered. *)
Definition started (e : env) (w : world) : world :=
  {| heap := heap w; out := out w ++ started_output e |}.

(** A turn of the loop with no frame and a key other than [q]. *)
Definition idle (c : cycle) : Prop :=
  frame c = None /\ exists k, key c = Key k /\ k <> ord_q.

(** The process: [main()] is the last statement of the script, so a return
    from it ends the interpreter with status 0; an exception that leaves
    [main] ends it with status 1. *)
Inductive status := Exited (code : Z) | Running.

Definition empty_world : world := {| heap := []; out := [] |}.

Definition run (e : env) : status * list event :=
  match main e empty_world with
  | Done true w => (Exited 0, out w)
  | Done false w => (Running, out w)
  | Fail _ w => (Exited 1, out w)
  end.

End Pipeline.

(** ** An instance for examples

    Filters that change nothing, a grey colour map and a detector that
    reports a fixed list of boxes. *)

Definition no_blur (m : matrix Z) : matrix Z := m.
Definition gray_map (m : matrix Z) : matrix bgr := map (map (fun v => (v, v, v))) m.
Definition no_rectangle (m : matrix bgr) : matrix bgr := m.
Definition fixed_detector (bs : list detection) (img : matrix bgr) : list detection := bs.
Definition no_plot (m : matrix bgr) (bs : list detection) : matrix bgr := m.

Definition example_run (bs : list detection) (e : env) : status * list event :=
  run no_blur gray_map no_rectangle (fixed_detector bs) no_plot e.

Definition box_at (x1 y1 x2 y2 : Q) (c : Q) : detection :=
  {| xyxy := (x1, y1, x2, y2); cls := c; conf := (9 # 10)%Q |}.

(** A 2x6 frame whose first row holds the depths of the end-to-end scenario
    at full confidence, and the same depths at a confidence of 10. *)
Definition scenario_depth : matrix Q :=
  [[1400; 1420; 1430; 1450; 1460; 0]; [0; 0; 0; 0; 0; 0]]%Q.
Definition scenario_conf : matrix Z :=
  [[255; 255; 255; 255; 255; 255]; [0; 0; 0; 0; 0; 0]].
Definition low_conf : matrix Z :=
  [[10; 10; 10; 10; 10; 10]; [0; 0; 0; 0; 0; 0]].

Definition one_frame (d : matrix Q) (c : matrix Z) (k : Z) : env :=
  {| open_ret := 0; start_ret := 0; range := 4000; vga := false;
     cycles := [ {| frame := Some (d, c); key := Key k |} ] |}.

(** ** The rest of the module: the rectangles, the mouse and trackbar
    callbacks, the preview helper (lines 21-76) and the report on the
    selected rectangle (lines 257-260) *)

Module UserRect.

Record t := { start_x : Z; start_y : Z; end_x : Z; end_y : Z }.

(** [__init__] *)
Definition init : t := {| start_x := 0; start_y := 0; end_x := 0; end_y := 0 |}.

(** [rect]: [(x, y, width, height)] *)
Definition rect (r : t) : Z * Z * Z * Z :=
  (start_x r, start_y r, end_x r - start_x r, end_y r - start_y r).

(** [a[r.slice]]: the property is the pair
    [(slice(start_y, end_y), slice(start_x, end_x))], used as an index. *)
Definition slice {A} (r : t) (a : matrix A) : matrix A :=
  slice2 (start_y r) (end_y r) (start_x r) (end_x r) a.

(** [empty] *)
Definition empty (r : t) : bool :=
  (start_x r =? end_x r) && (start_y r =? end_y r).

End UserRect.

(** The module's mutable globals (lines 46-47). *)
Record globals := {
  confidence_value : Z;
  selectRect : UserRect.t;
  followRect : UserRect.t
}.

Definition initial_globals : globals :=
  {| confidence_value := 30;
     selectRect := UserRect.init;
     followRect := UserRect.init |}.

(** OpenCV's mouse event codes. *)
Definition EVENT_LBUTTONDOWN : Z := 1.
Definition EVENT_LBUTTONUP : Z := 4.

(** The square [x-4 .. x+4], [y-4 .. y+4] both callbacks' branches build. *)
Definition around (x y : Z) : UserRect.t :=
  {| UserRect.start_x := x - 4; UserRect.start_y := y - 4;
     UserRect.end_x := x + 4; UserRect.end_y := y + 4 |}.

(** [on_mouse(event, x, y, flags, param)] *)
Definition on_mouse (event x y : Z) (g : globals) : globals :=
  if event =? EVENT_LBUTTONDOWN then g
  else if event =? EVENT_LBUTTONUP then
    {| confidence_value := confidence_value g;
       selectRect := around x y;
       followRect := followRect g |}
  else
    {| confidence_value := confidence_value g;
       selectRect := selectRect g;
       followRect := around x y |}.

(** [on_confidence_changed(value)] *)
Definition on_confidence_changed (value : Z) (g : globals) : globals :=
  {| confidence_value := value;
     selectRect := selectRect g;
     followRect := followRect g |}.

(** A run of the user interface: mouse events and trackbar moves. *)
Inductive ui_event :=
  | Mouse (event x y : Z)
  | Trackbar (value : Z).

Definition ui_step (g : globals) (e : ui_event) : globals :=
  match e with
  | Mouse event x y => on_mouse event x y g
  | Trackbar value => on_confidence_changed value g
  end.

Definition ui_run (es : list ui_event) (g : globals) : globals :=
  foldl ui_step g es.

(** Two arrays agree on their first two dimensions. *)
Definition same_shape {A B} (m : matrix A) (k : matrix B) : bool :=
  (length m =? length k)%nat &&
  forallb (fun rs => (length (fst rs) =? length (snd rs))%nat) (zip m k).

(** The same, as a relation: as many rows, and row by row as many
    columns. *)
Definition same_rows {A B} (m : matrix A) (k : matrix B) : Prop :=
  Forall2 (fun (r : list A) (s : list B) => length r = length s) m k.

(** [a[mask] = v] for a mask of the shape of [a]. *)
Definition put_where {A} (v : A) (a : matrix A) (mask : matrix bool) : matrix A :=
  zip_with (zip_with (fun p (b : bool) => if b then v else p)) a mask.

(** [confidence < value], element by element *)
Definition below (value : Z) (confidence : matrix Z) : matrix bool :=
  map (map (fun k => k <? value)) confidence.

(** [getPreviewRGB(preview, confidence)]: [np.nan_to_num] returns a new
    array with the samples of [preview]; the masked assignment writes into
    it and raises [IndexError] (a [LookupError]) when the mask has another
    shape. *)
Definition getPreviewRGB (g : globals) (preview confidence : loc) : M loc :=
  let! p := loadBGR preview in
  let! preview := alloc (ArrBGR p) in
  let! c := loadI confidence in
  let mask := below (confidence_value g) c in
  let! p := loadBGR preview in
  if same_shape p mask then
    store preview (ArrBGR (put_where (0, 0, 0) p mask)) ;;
    ret preview
  else throw LookupError.

(** [np.mean(a)] of a 2-d array: [None] stands for the [nan] of an array
    without samples. *)
Definition np_mean (a : matrix Q) : option Q :=
  let flat := concat a in
  if (length flat =? 0)%nat then None
  else Some (foldr Qplus 0%Q flat / inject_Z (Z.of_nat (length flat)))%Q.

(** Lines 258-260: the report on the selected rectangle, when there is
    one. *)
Definition select_rect_distance (g : globals) (depth_buf : matrix Q)
    : option (option Q) :=
  if negb (UserRect.empty (selectRect g))
  then Some (np_mean (UserRect.slice (selectRect g) depth_buf))
  else None.

(** ** What a frame's detections output, as a function of the frame *)

(** The output of one detection, and the exception that ends it if any. *)
Definition box_trace (D : matrix Q) (C : matrix Z) (H W : Z) (b : detection)
    : list event * option exn :=
  let '(x1, y1, x2, y2) := clamp_box H W b in
  if degenerate (x1, y1, x2, y2) then ([], None)
  else
    let dist_cm := estimate CONF_THR MARGIN_MM D C x1 y1 x2 y2 in
    let cls_id := py_int (cls b) in
    match classify cls_id dist_cm with
    | Ok tier =>
        (([PrintClsId cls_id] ++ alert_events tier dist_cm) ++
         [PrintSummary cls_id (conf b) dist_cm], None)
    | Raise e => ([PrintClsId cls_id], Some e)
    end.

Fixpoint boxes_trace (D : matrix Q) (C : matrix Z) (H W : Z) (bs : list detection)
    : list event * option exn :=
  match bs with
  | [] => ([], None)
  | b :: bs' =>
      match box_trace D C H W b with
      | (t, Some e) => (t, Some e)
      | (t, None) =>
          let '(t', r) := boxes_trace D C H W bs' in (t ++ t', r)
      end
  end.

(** The events that close a frame once its detections are done. *)
Definition frame_tail (bs : list detection) : list event :=
  (if (0 <? length bs)%nat then [ImWrite "detections.jpg"] else []) ++
  [DrawRectangle; OutWrite; CamReleaseFrame].

(** What the world has output at the end of a computation, and how it
    ended. *)
Definition observed {A} (r : res A) : list event * option exn :=
  match r with
  | Done _ w => (out w, None)
  | Fail e w => (out w, Some e)
  end.

(** The events that only the end of a frame outputs. *)
Definition frame_closing (ev : event) : bool :=
  match ev with
  | ImWrite _ | DrawRectangle | OutWrite | CamReleaseFrame => true
  | _ => false
  end.

(** ** Facts about the comparisons *)

Lemma Qltb_lt (x y : Q) : Qltb x y = true <-> (x < y)%Q.
Proof.
  unfold Qltb. rewrite negb_true_iff, <- not_true_iff_false, Qle_bool_iff.
  split; [apply Qnot_le_lt | apply Qlt_not_le].
Qed.

Lemma Qltb_ge (x y : Q) : Qltb x y = false <-> (y <= x)%Q.
Proof.
  unfold Qltb. rewrite negb_false_iff. apply Qle_bool_iff.
Qed.

Lemma Qle_bool_gt (x y : Q) : Qle_bool x y = false <-> (y < x)%Q.
Proof.
  rewrite <- not_true_iff_false, Qle_bool_iff.
  split; [apply Qnot_le_lt | apply Qlt_not_le].
Qed.

(** Case analysis on every comparison of a goal, leaving linear facts. *)
Ltac cmp_cases :=
  repeat match goal with
  | |- context [Qltb ?a ?b] =>
      let E := fresh "E" in
      destruct (Qltb a b) eqn:E;
      [apply Qltb_lt in E | apply Qltb_ge in E]
  | |- context [Qle_bool ?a ?b] =>
      let E := fresh "E" in
      destruct (Qle_bool a b) eqn:E;
      [apply Qle_bool_iff in E | apply Qle_bool_gt in E]
  end.

(** ** The classifier *)

(** On a present distance the chain never raises, and it picks the tier of
    the specification's table although it tests the stop band last: the
    three bands are pairwise disjoint for a fixed class. *)
Lemma classify_table_agree (cls_id : Z) (d : Q) :
  classify cls_id (Some d) = Ok (classify_table cls_id d).
Proof.
  unfold classify, classify_table, py_and, py_lt, py_ge, obind.
  destruct (cls_id =? 0); simpl; cmp_cases; simpl; try reflexivity; lra.
Qed.

(** With no distance estimate the first ordering comparison of the chain
    is a comparison with [None]. *)
Lemma classify_None (cls_id : Z) :
  classify cls_id None = Raise TypeError.
Proof.
  unfold classify, py_and, obind. destruct (cls_id =? 0); reflexivity.
Qed.

(** C3: the stop band takes precedence: on every present distance the
    chain of the source (which tests the stop band last, the bands being
    disjoint) returns what the table with the stop band first returns; a
    distance below 45 cm yields [CriticalStop] with the message
    "Stop, obstacle very close" for every class id; a person at 40 cm gets
    [CriticalStop]. *)
Theorem classify_critical_first :
  (forall cls_id d, classify cls_id (Some d) = Ok (classify_table cls_id d)) /\
  (forall cls_id d, (d < 45)%Q ->
     classify cls_id (Some d) = Ok CriticalStop /\
     alerts (alert_events CriticalStop (Some d)) = ["Stop, obstacle very close"%string]) /\
  classify 0 (Some 40%Q) = Ok CriticalStop.
Proof.
  split; [exact classify_table_agree | split].
  - intros cls_id d Hd. split; [| reflexivity].
    rewrite classify_table_agree. unfold classify_table.
    apply Qltb_lt in Hd. now rewrite Hd.
  - reflexivity.
Qed.

Lemma classify_critical_first_witness :
  classify 7 (Some 40%Q) = Ok CriticalStop /\
  alerts (alert_events CriticalStop (Some 40%Q)) = ["Stop, obstacle very close"%string].
Proof.
  apply (proj1 (proj2 classify_critical_first) 7 40%Q). reflexivity.
Defined.

(** C6: for a class other than person, 45.0 cm is an obstacle warning and
    150.0 cm is no alert. *)
Theorem classify_obstacle_bounds (cls_id : Z) :
  cls_id <> 0 ->
  classify cls_id (Some 45%Q) = Ok ObstacleWarning /\
  classify cls_id (Some 150%Q) = Ok TierNone.
Proof.
  intros Hc. rewrite !classify_table_agree. unfold classify_table.
  apply Z.eqb_neq in Hc. rewrite Hc. split; reflexivity.
Qed.

Lemma classify_obstacle_bounds_witness :
  classify 2 (Some 45%Q) = Ok ObstacleWarning /\
  classify 2 (Some 150%Q) = Ok TierNone.
Proof. apply (classify_obstacle_bounds 2). lia. Defined.

(** ** Order statistics *)

Lemma insert_sorted_perm (x : Q) (l : list Q) : insert_sorted x l ≡ₚ x :: l.
Proof.
  induction l as [| y l IH]; simpl; [reflexivity |].
  destruct (Qle_bool x y); [reflexivity |].
  rewrite IH. apply perm_swap.
Qed.

Lemma np_sort_perm (l : list Q) : np_sort l ≡ₚ l.
Proof.
  induction l as [| x l IH]; simpl; [reflexivity |].
  rewrite insert_sorted_perm. now rewrite IH.
Qed.

Lemma np_sort_length (l : list Q) : length (np_sort l) = length l.
Proof. apply Permutation_length, np_sort_perm. Qed.

Lemma insert_sorted_sorted (x : Q) (l : list Q) :
  StronglySorted Qle l -> StronglySorted Qle (insert_sorted x l).
Proof.
  induction 1 as [| y l Hs IH Hy]; simpl.
  - repeat constructor.
  - destruct (Qle_bool x y) eqn:E.
    + apply Qle_bool_iff in E. constructor; [constructor; assumption |].
      constructor; [assumption |].
      eapply Forall_impl; [exact Hy |]. intros z Hz. simpl in Hz. lra.
    + apply Qle_bool_gt in E. constructor; [assumption |].
      rewrite insert_sorted_perm. constructor; [lra | assumption].
Qed.

Lemma np_sort_sorted (l : list Q) : StronglySorted Qle (np_sort l).
Proof.
  induction l as [| x l IH]; simpl; [constructor |].
  now apply insert_sorted_sorted.
Qed.

(** In a sorted list an earlier order statistic is no larger than a later
    one. *)
Lemma sorted_nth_le (s : list Q) :
  StronglySorted Qle s ->
  forall i j, (i <= j < length s)%nat -> (nth i s 0 <= nth j s 0)%Q.
Proof.
  induction 1 as [| x s Hs IH Hx]; intros i j [Hij Hj]; simpl in Hj; [lia |].
  destruct i as [| i], j as [| j]; simpl; try lia.
  - lra.
  - rewrite Forall_forall in Hx. apply Hx, list_elem_of_In, nth_In. lia.
  - apply IH. lia.
Qed.

Lemma inject_Z_nonneg (z : Z) : 0 <= z -> (0 <= inject_Z z)%Q.
Proof. intros Hz. change 0%Q with (inject_Z 0). now rewrite <- Zle_Qle. Qed.

(** The 5th percentile lies between the smallest sample and the largest. *)
Lemma np_percentile_5_lower (a : list Q) :
  a <> [] -> (nth 0 (np_sort a) 0 <= np_percentile a 5)%Q.
Proof.
  intros Ha. unfold np_percentile.
  pose proof (np_sort_sorted a) as Hs.
  pose proof (np_sort_length a) as Hl.
  set (n := Z.of_nat (length a)).
  assert (Hn : 1 <= n) by (destruct a; [congruence | simpl in n; lia]).
  set (virt := (inject_Z (n - 1) * (5 / 100))%Q).
  assert (Hv0 : (0 <= virt)%Q).
  { unfold virt. assert (0 <= inject_Z (n - 1))%Q
      by (apply inject_Z_nonneg; lia).
    setoid_replace (5 / 100)%Q with (1 # 20)%Q using relation Qeq
      by reflexivity. lra. }
  assert (Hv1 : (virt <= inject_Z (n - 1))%Q).
  { unfold virt. assert (0 <= inject_Z (n - 1))%Q
      by (apply inject_Z_nonneg; lia).
    setoid_replace (5 / 100)%Q with (1 # 20)%Q using relation Qeq
      by reflexivity. lra. }
  set (prev := Qfloor virt).
  assert (Hp0 : 0 <= prev).
  { unfold prev. change 0 with (Qfloor 0). now apply Qfloor_resp_le. }
  assert (Hp1 : prev <= n - 1).
  { unfold prev. rewrite <- (Qfloor_Z (n - 1)). now apply Qfloor_resp_le. }
  assert (Hg : (0 <= virt - inject_Z prev)%Q).
  { pose proof (Qfloor_le virt). fold prev in H. lra. }
  set (i := Z.to_nat (clipZ 0 (n - 1) prev)).
  set (j := Z.to_nat (clipZ 0 (n - 1) (prev + 1))).
  assert (Hij : (i <= j < length (np_sort a))%nat).
  { unfold i, j, clipZ. rewrite Hl. subst n. lia. }
  pose proof (sorted_nth_le _ Hs 0%nat i ltac:(lia)) as H0.
  pose proof (sorted_nth_le _ Hs i j Hij) as H1.
  set (lo := nth i (np_sort a) 0%Q) in *.
  set (hi := nth j (np_sort a) 0%Q) in *.
  assert (0 <= (hi - lo) * (virt - inject_Z prev))%Q
    by (apply Qmult_le_0_compat; lra).
  lra.
Qed.

Lemma np_sort_head_in (a : list Q) : a <> [] -> In (nth 0 (np_sort a) 0%Q) a.
Proof.
  intros Ha. apply (Permutation_in _ (np_sort_perm a)).
  apply nth_In. rewrite np_sort_length.
  destruct a; [congruence | simpl; lia].
Qed.

Lemma cluster_nonempty (margin_mm : Z) (valid : list Q) :
  valid <> [] -> 0 <= margin_mm -> cluster margin_mm valid <> [].
Proof.
  intros Hv Hm. unfold cluster.
  pose proof (np_sort_head_in valid Hv) as Hin.
  pose proof (np_percentile_5_lower valid Hv) as Hle.
  assert (Hf : In (nth 0 (np_sort valid) 0%Q)
    (List.filter (fun v => Qle_bool v (np_percentile valid 5 + inject_Z margin_mm))
       valid)).
  { apply filter_In. split; [assumption |]. apply Qle_bool_iff.
    assert (0 <= inject_Z margin_mm)%Q by (apply inject_Z_nonneg; lia). lra. }
  intros E. rewrite E in Hf. exact Hf.
Qed.

Lemma length_eqb_0 {A} (l : list A) : (length l =? 0)%nat = true <-> l = [].
Proof. rewrite Nat.eqb_eq. destruct l; simpl; split; congruence. Qed.

Lemma dist_cm_of_spec (margin_mm : Z) (valid : list Q) :
  valid <> [] -> dist_cm_of margin_mm valid = Some (spec_distance_cm margin_mm valid).
Proof.
  intros Hv. unfold dist_cm_of, spec_distance_cm.
  destruct (length valid =? 0)%nat eqn:E; [apply length_eqb_0 in E; congruence |].
  fold (cluster margin_mm valid).
  destruct (cluster margin_mm valid); reflexivity.
Qed.

Lemma dist_cm_of_None (margin_mm : Z) (valid : list Q) :
  dist_cm_of margin_mm valid = None <-> valid = [].
Proof.
  unfold dist_cm_of. destruct (length valid =? 0)%nat eqn:E.
  - apply length_eqb_0 in E. tauto.
  - split; [discriminate |]. intros ->. discriminate.
Qed.

(** C10: with a margin that is not negative the cluster of a non-empty valid
    set is never empty, so the estimate is the cluster median times 0.1 and
    the fallback to [d_min] is not taken. *)
Theorem cluster_fallback_unreachable (margin_mm : Z) (valid : list Q) :
  valid <> [] -> 0 <= margin_mm ->
  cluster margin_mm valid <> [] /\
  dist_cm_of margin_mm valid =
    Some (np_median (cluster margin_mm valid) * (1 # 10))%Q.
Proof.
  intros Hv Hm. pose proof (cluster_nonempty margin_mm valid Hv Hm) as Hc.
  split; [assumption |].
  rewrite dist_cm_of_spec by assumption. unfold spec_distance_cm.
  destruct (cluster margin_mm valid); [congruence | reflexivity].
Qed.

Lemma cluster_fallback_unreachable_witness :
  cluster 250 [1400; 1420; 1430; 1450; 1460]%Q <> [] /\
  dist_cm_of 250 [1400; 1420; 1430; 1450; 1460]%Q =
    Some (np_median (cluster 250 [1400; 1420; 1430; 1450; 1460]%Q) * (1 # 10))%Q.
Proof.
  apply (cluster_fallback_unreachable 250 [1400; 1420; 1430; 1450; 1460]%Q).
  - discriminate.
  - lia.
Defined.

(** ** Slices and boolean indexing, pixel by pixel *)

Lemma slice_bound_nonneg (len : nat) (i : Z) :
  0 <= i -> slice_bound len i = Nat.min (Z.to_nat i) len.
Proof.
  intros Hi. unfold slice_bound.
  destruct (i <? 0) eqn:E; [apply Z.ltb_lt in E; lia | lia].
Qed.

Lemma slice_lookup {A} (lo hi : Z) (l : list A) (j : nat) :
  0 <= lo -> 0 <= hi ->
  slice lo hi l !! j =
    if decide (lo + Z.of_nat j < hi) then l !! (Z.to_nat lo + j)%nat else None.
Proof.
  intros Hlo Hhi. unfold slice.
  rewrite !slice_bound_nonneg by assumption.
  rewrite lookup_take. destruct (decide (j < _)%nat) as [Hj | Hj].
  - rewrite lookup_drop.
    destruct (decide (lo + Z.of_nat j < hi)) as [Hd | Hd]; [| lia].
    f_equal. lia.
  - destruct (decide (lo + Z.of_nat j < hi)) as [Hd | Hd]; [| reflexivity].
    symmetry. apply lookup_ge_None. lia.
Qed.

Lemma pixel_slice2 {A} (y1 y2 x1 x2 : Z) (m : matrix A) (i j : nat) :
  0 <= x1 -> 0 <= y1 -> 0 <= x2 -> 0 <= y2 ->
  pixel (slice2 y1 y2 x1 x2 m) i j =
    if decide (y1 + Z.of_nat i < y2 /\ x1 + Z.of_nat j < x2)
    then pixel m (Z.to_nat y1 + i) (Z.to_nat x1 + j) else None.
Proof.
  intros Hx1 Hy1 Hx2 Hy2. unfold pixel, slice2.
  change (map (slice x1 x2) (slice y1 y2 m)) with (slice x1 x2 <$> slice y1 y2 m).
  rewrite list_lookup_fmap, slice_lookup by assumption.
  destruct (decide (y1 + Z.of_nat i < y2)) as [Hi | Hi].
  - destruct (m !! (Z.to_nat y1 + i)%nat) as [row |] eqn:Er; simpl.
    + rewrite slice_lookup by assumption.
      destruct (decide (x1 + Z.of_nat j < x2)) as [Hj | Hj];
        destruct (decide _) as [Hd | Hd]; try reflexivity; tauto.
    + destruct (decide _); reflexivity.
  - simpl. destruct (decide _) as [Hd | Hd]; [tauto | reflexivity].
Qed.

Lemma elem_of_select_row {A} (row : list A) (mask : list bool) (x : A) :
  In x (select_row row mask) <->
  exists j, row !! j = Some x /\ mask !! j = Some true.
Proof.
  unfold select_row. rewrite in_map_iff. split.
  - intros [[y b] [Hy Hin]]. simpl in Hy. subst y.
    apply filter_In in Hin. destruct Hin as [Hin Hb]. simpl in Hb. subst b.
    apply list_elem_of_In, list_elem_of_lookup in Hin. destruct Hin as [j Hj].
    apply lookup_zip_with_Some in Hj.
    destruct Hj as (x' & b' & Heq & Hr & Hm). inversion Heq; subst. eauto.
  - intros (j & Hr & Hm). exists (x, true). split; [reflexivity |].
    apply filter_In. split; [| reflexivity].
    apply list_elem_of_In, list_elem_of_lookup. exists j.
    apply lookup_zip_with_Some. eauto.
Qed.

Lemma elem_of_select {A} (m : matrix A) (mask : matrix bool) (x : A) :
  In x (select m mask) <->
  exists i j, pixel m i j = Some x /\ pixel mask i j = Some true.
Proof.
  unfold select. rewrite in_concat. split.
  - intros (sel & Hsel & Hx).
    apply list_elem_of_In, list_elem_of_lookup in Hsel. destruct Hsel as [i Hi].
    apply lookup_zip_with_Some in Hi. destruct Hi as (row & mrow & -> & Hr & Hm).
    apply elem_of_select_row in Hx. destruct Hx as (j & Hj & Hmj).
    exists i, j. unfold pixel. rewrite Hr, Hm. simpl. auto.
  - intros (i & j & Hp & Hq). unfold pixel in Hp, Hq.
    destruct (m !! i) as [row |] eqn:Er; [| discriminate].
    destruct (mask !! i) as [mrow |] eqn:Em; [| discriminate].
    simpl in Hp, Hq. exists (select_row row mrow). split.
    + apply list_elem_of_In, list_elem_of_lookup. exists i.
      apply lookup_zip_with_Some. eauto.
    + apply elem_of_select_row. eauto.
Qed.

Lemma pixel_roi_mask (conf_thr : Z) (rd : matrix Q) (rc : matrix Z) (i j : nat) (b : bool) :
  pixel (roi_mask conf_thr rd rc) i j = Some b <->
  exists d k, pixel rd i j = Some d /\ pixel rc i j = Some k /\
              b = valid_px conf_thr d k.
Proof.
  unfold pixel, roi_mask. rewrite lookup_zip_with.
  destruct (rd !! i) as [rowd |]; simpl;
    [| split; [discriminate | intros (d & k & H & _); discriminate]].
  destruct (rc !! i) as [rowc |]; simpl;
    [| split; [discriminate | intros (d & k & _ & H & _); discriminate]].
  rewrite lookup_zip_with_Some. split.
  - intros (d & k & -> & Hd & Hk). eauto.
  - intros (d & k & Hd & Hk & ->). eauto.
Qed.

Lemma valid_px_true (conf_thr : Z) (d : Q) (k : Z) :
  valid_px conf_thr d k = true <-> (0 < d)%Q /\ conf_thr <= k.
Proof.
  unfold valid_px. rewrite andb_true_iff, Qltb_lt, Z.leb_le. reflexivity.
Qed.

(** The valid set the code builds holds exactly the depths of the valid
    pixels of the box. *)
Lemma roi_valid_in_box (conf_thr : Z) (D : matrix Q) (C : matrix Z)
    (x1 y1 x2 y2 : Z) (x : Q) :
  0 <= x1 -> 0 <= y1 -> 0 <= x2 -> 0 <= y2 ->
  In x (roi_valid conf_thr (slice2 y1 y2 x1 x2 D) (slice2 y1 y2 x1 x2 C)) <->
  exists r c k, in_box x1 y1 x2 y2 r c /\
    pixel D r c = Some x /\ pixel C r c = Some k /\ (0 < x)%Q /\ conf_thr <= k.
Proof.
  intros Hx1 Hy1 Hx2 Hy2. unfold roi_valid. rewrite elem_of_select. split.
  - intros (i & j & Hp & Hm). apply pixel_roi_mask in Hm.
    destruct Hm as (d & k & Hd & Hk & Hv).
    rewrite Hp in Hd. inversion Hd; subst d. clear Hd.
    rewrite pixel_slice2 in Hp by assumption.
    rewrite pixel_slice2 in Hk by assumption.
    destruct (decide _) as [[Hi Hj] | ]; [| discriminate].
    symmetry in Hv. apply valid_px_true in Hv.
    exists (Z.to_nat y1 + i)%nat, (Z.to_nat x1 + j)%nat, k.
    unfold in_box. repeat split; try assumption; try lia; tauto.
  - intros (r & c & k & [Hr Hc] & Hd & Hk & Hpos & Hthr).
    exists (r - Z.to_nat y1)%nat, (c - Z.to_nat x1)%nat.
    assert (Er : (Z.to_nat y1 + (r - Z.to_nat y1) = r)%nat) by lia.
    assert (Ec : (Z.to_nat x1 + (c - Z.to_nat x1) = c)%nat) by lia.
    assert (Hslice : forall A (m : matrix A),
      pixel (slice2 y1 y2 x1 x2 m) (r - Z.to_nat y1) (c - Z.to_nat x1) = pixel m r c).
    { intros A m. rewrite pixel_slice2 by assumption.
      destruct (decide _) as [_ | Hn]; [now rewrite Er, Ec | lia]. }
    split; [now rewrite Hslice |].
    apply pixel_roi_mask. exists x, k. rewrite !Hslice.
    repeat split; try assumption.
    symmetry. apply valid_px_true. auto.
Qed.

Lemma clamp_nonneg (N v : Z) : 0 <= clamp N v.
Proof. unfold clamp. lia. Qed.

Lemma clamp_box_nonneg (H W : Z) (b : detection) :
  let '(x1, y1, x2, y2) := clamp_box H W b in
  0 <= x1 /\ 0 <= y1 /\ 0 <= x2 /\ 0 <= y2.
Proof.
  unfold clamp_box. destruct (xyxy b) as [[[x1 y1] x2] y2].
  repeat split; apply clamp_nonneg.
Qed.

Lemma list_empty_no_elem {A} (l : list A) : l = [] <-> forall x, ~ In x l.
Proof.
  split; [intros -> x [] |]. destruct l as [| a l]; [reflexivity |].
  intros H. exfalso. apply (H a). now left.
Qed.

(** The estimate is absent exactly when the box holds no valid pixel. *)
Lemma estimate_None_pixels (conf_thr margin_mm : Z) (D : matrix Q) (C : matrix Z)
    (x1 y1 x2 y2 : Z) :
  0 <= x1 -> 0 <= y1 -> 0 <= x2 -> 0 <= y2 ->
  estimate conf_thr margin_mm D C x1 y1 x2 y2 = None <->
  forall r c, in_box x1 y1 x2 y2 r c -> ~ valid_at conf_thr D C r c.
Proof.
  intros Hx1 Hy1 Hx2 Hy2.
  unfold estimate. rewrite dist_cm_of_None, list_empty_no_elem. split.
  - intros Hno r c Hbox (d & k & Hd & Hk & Hpos & Hthr).
    apply (Hno d). apply roi_valid_in_box; try assumption.
    exists r, c, k. auto.
  - intros Hno x Hin. apply roi_valid_in_box in Hin; try assumption.
    destruct Hin as (r & c & k & Hbox & Hd & Hk & Hpos & Hthr).
    apply (Hno r c Hbox). exists x, k. auto.
Qed.

Lemma estimate_Some_pixels (conf_thr margin_mm : Z) (D : matrix Q) (C : matrix Z)
    (x1 y1 x2 y2 : Z) :
  0 <= x1 -> 0 <= y1 -> 0 <= x2 -> 0 <= y2 ->
  (exists d, estimate conf_thr margin_mm D C x1 y1 x2 y2 = Some d) <->
  exists r c, in_box x1 y1 x2 y2 r c /\ valid_at conf_thr D C r c.
Proof.
  intros Hx1 Hy1 Hx2 Hy2.
  pose proof (estimate_None_pixels conf_thr margin_mm D C x1 y1 x2 y2
                Hx1 Hy1 Hx2 Hy2) as Hnone.
  unfold estimate in *.
  set (valid := roi_valid conf_thr (slice2 y1 y2 x1 x2 D) (slice2 y1 y2 x1 x2 C)) in *.
  split.
  - intros [d Hd]. destruct valid as [| x rest] eqn:Ev; [discriminate |].
    assert (Hin : In x valid) by (rewrite Ev; now left).
    apply roi_valid_in_box in Hin; try assumption.
    destruct Hin as (r & c & k & Hbox & Hpx & Hk & Hpos & Hthr).
    exists r, c. split; [assumption |]. exists x, k. auto.
  - intros (r & c & Hbox & Hv).
    destruct (dist_cm_of margin_mm valid) as [d |] eqn:E; [eauto |].
    exfalso. exact (proj1 Hnone eq_refl r c Hbox Hv).
Qed.

(** C5: for the clamped box of a detection that is not skipped, the estimate
    is [None] exactly when no pixel of the box (rows [y1 .. y2-1], columns
    [x1 .. x2-1], the slice the code reads) has a positive depth and a
    confidence at or above the threshold, and is a value exactly when some
    pixel has. *)
Theorem estimate_none_iff (conf_thr margin_mm : Z) (D : matrix Q) (C : matrix Z)
    (b : detection) :
  let '(H, W) := shape D in
  let '(x1, y1, x2, y2) := clamp_box H W b in
  degenerate (x1, y1, x2, y2) = false ->
  (estimate conf_thr margin_mm D C x1 y1 x2 y2 = None <->
     forall r c, in_box x1 y1 x2 y2 r c -> ~ valid_at conf_thr D C r c) /\
  ((exists d, estimate conf_thr margin_mm D C x1 y1 x2 y2 = Some d) <->
     exists r c, in_box x1 y1 x2 y2 r c /\ valid_at conf_thr D C r c).
Proof.
  destruct (shape D) as [H W].
  pose proof (clamp_box_nonneg H W b) as Hnn.
  destruct (clamp_box H W b) as [[[x1 y1] x2] y2].
  destruct Hnn as (Hx1 & Hy1 & Hx2 & Hy2). intros _.
  split; [now apply estimate_None_pixels | now apply estimate_Some_pixels].
Qed.

Lemma estimate_none_iff_witness :
  (estimate 30 250 [[1400; 0]; [0; 0]]%Q [[255; 255]; [255; 255]] 0 0 1 1 = None <->
     forall r c, in_box 0 0 1 1 r c ->
       ~ valid_at 30 [[1400; 0]; [0; 0]]%Q [[255; 255]; [255; 255]] r c) /\
  ((exists d, estimate 30 250 [[1400; 0]; [0; 0]]%Q [[255; 255]; [255; 255]] 0 0 1 1
                = Some d) <->
     exists r c, in_box 0 0 1 1 r c /\
       valid_at 30 [[1400; 0]; [0; 0]]%Q [[255; 255]; [255; 255]] r c).
Proof.
  apply (estimate_none_iff 30 250 [[1400; 0]; [0; 0]]%Q [[255; 255]; [255; 255]]
           {| xyxy := (0, 0, 1, 1)%Q; cls := 0%Q; conf := 1%Q |}).
  reflexivity.
Defined.

(** ** The valid set of the code is the valid set of the box *)

Lemma slice_take_drop {A} (lo hi : Z) (l : list A) :
  0 <= lo -> 0 <= hi ->
  slice lo hi l = take (Z.to_nat hi - Z.to_nat lo) (drop (Z.to_nat lo) l).
Proof.
  intros Hlo Hhi. unfold slice. rewrite !slice_bound_nonneg by assumption.
  destruct (le_lt_dec (Z.to_nat lo) (length l)) as [Hl | Hl].
  - rewrite (Nat.min_l (Z.to_nat lo)) by assumption.
    destruct (le_lt_dec (Z.to_nat hi) (length l)) as [Hh | Hh].
    + now rewrite (Nat.min_l (Z.to_nat hi)) by assumption.
    + rewrite (Nat.min_r (Z.to_nat hi)) by lia.
      rewrite !take_ge; [reflexivity | |]; rewrite length_drop; lia.
  - rewrite !drop_ge by lia. now rewrite !take_nil.
Qed.

Lemma omap_cons_eq {A B} (f : A -> option B) (a : A) (l : list A) :
  omap f (a :: l) = match f a with Some y => y :: omap f l | None => omap f l end.
Proof. reflexivity. Qed.

Lemma omap_all_None {A B} (f : A -> option B) (l : list A) :
  (forall x, In x l -> f x = None) -> omap f l = [].
Proof.
  induction l as [| a l IH]; intros H; simpl; [reflexivity |].
  rewrite (H a) by now left. apply IH. intros x Hx. apply H. now right.
Qed.

(** One sliced row: masking then indexing is a walk over the columns. *)
Lemma select_row_window (f : Q -> Z -> bool) (rd : list Q) (rc : list Z) (n a : nat) :
  select_row (take n (drop a rd))
    (zip_with f (take n (drop a rd)) (take n (drop a rc))) =
  omap (row_pick f rd rc) (seq a n).
Proof.
  revert a. induction n as [| n IH]; intros a; [reflexivity |].
  simpl seq. rewrite omap_cons_eq. specialize (IH (S a)). unfold row_pick at 1.
  destruct (rd !! a) as [d |] eqn:Ed.
  - rewrite (drop_S _ _ _ Ed). destruct (rc !! a) as [k |] eqn:Ek.
    + rewrite (drop_S _ _ _ Ek). simpl. unfold select_row in *. simpl.
      destruct (f d k); simpl; now rewrite IH.
    + apply lookup_ge_None in Ek. rewrite <- IH.
      rewrite (drop_ge rc) by lia. rewrite (drop_ge rc) by lia.
      rewrite !take_nil. simpl.
      destruct (take n (drop (S a) rd)); reflexivity.
  - apply lookup_ge_None in Ed. rewrite <- IH.
    rewrite (drop_ge rd) by lia. rewrite (drop_ge rd) by lia.
    now rewrite !take_nil.
Qed.

Lemma roi_valid_window (conf_thr : Z) (D : matrix Q) (C : matrix Z)
    (x1 x2 : Z) (n a : nat) :
  0 <= x1 -> 0 <= x2 ->
  roi_valid conf_thr (map (slice x1 x2) (take n (drop a D)))
                     (map (slice x1 x2) (take n (drop a C))) =
  flat_map (rows_pick conf_thr D C x1 x2) (seq a n).
Proof.
  intros Hx1 Hx2. unfold roi_valid, roi_mask, select.
  revert a. induction n as [| n IH]; intros a; [reflexivity |].
  simpl seq. simpl flat_map. specialize (IH (S a)). unfold rows_pick at 1.
  destruct (D !! a) as [rd |] eqn:Ed.
  - rewrite (drop_S _ _ _ Ed). destruct (C !! a) as [rc |] eqn:Ec.
    + rewrite (drop_S _ _ _ Ec). simpl. rewrite IH. f_equal.
      rewrite !slice_take_drop by assumption. apply select_row_window.
    + apply lookup_ge_None in Ec. rewrite <- IH.
      rewrite (drop_ge C) by lia. rewrite (drop_ge C) by lia.
      rewrite !take_nil. simpl.
      destruct (map (slice x1 x2) (take n (drop (S a) D))); reflexivity.
  - apply lookup_ge_None in Ed. rewrite <- IH.
    rewrite (drop_ge D) by lia. rewrite (drop_ge D) by lia.
    now rewrite !take_nil.
Qed.

Lemma rows_pick_valid_depth (conf_thr : Z) (D : matrix Q) (C : matrix Z)
    (x1 x2 : Z) (r : nat) :
  rows_pick conf_thr D C x1 x2 r =
  omap (valid_depth conf_thr D C r) (seq (Z.to_nat x1) (Z.to_nat x2 - Z.to_nat x1)).
Proof.
  unfold rows_pick, valid_depth, pixel.
  destruct (D !! r) as [rd |]; simpl.
  - destruct (C !! r) as [rc |]; simpl; [reflexivity |].
    symmetry. apply omap_all_None. intros c _. now destruct (rd !! c).
  - symmetry. now apply omap_all_None.
Qed.

(** Slicing the two buffers, building the mask and indexing with it gives
    the valid depths of the box in row-major order. *)
Lemma roi_valid_spec (conf_thr : Z) (D : matrix Q) (C : matrix Z) (x1 y1 x2 y2 : Z) :
  0 <= x1 -> 0 <= y1 -> 0 <= x2 -> 0 <= y2 ->
  roi_valid conf_thr (slice2 y1 y2 x1 x2 D) (slice2 y1 y2 x1 x2 C) =
  spec_valid conf_thr D C x1 y1 x2 y2.
Proof.
  intros Hx1 Hy1 Hx2 Hy2. unfold slice2, spec_valid.
  rewrite !(slice_take_drop y1 y2) by assumption.
  rewrite roi_valid_window by assumption.
  induction (seq (Z.to_nat y1) (Z.to_nat y2 - Z.to_nat y1)) as [| r rs IH];
    simpl; [reflexivity |].
  now rewrite IH, rows_pick_valid_depth.
Qed.



(** ** The confidence gate *)

Lemma set_where_row_lookup (v : Q) (row : list Q) (mask : list bool) (j : nat) :
  set_where_row v row mask !! j =
  match row !! j with
  | Some x => Some (if default false (mask !! j) then v else x)
  | None => None
  end.
Proof.
  revert mask j. induction row as [| x row IH]; intros mask j.
  - now destruct mask.
  - destruct mask as [| b mask]; simpl.
    + destruct ((x :: row) !! j); reflexivity.
    + destruct j as [| j]; simpl; [reflexivity | apply IH].
Qed.

Lemma set_where_lookup (v : Q) (m : matrix Q) (mask : matrix bool) (i : nat) :
  set_where v m mask !! i =
  match m !! i with
  | Some row => Some (set_where_row v row (default [] (mask !! i)))
  | None => None
  end.
Proof.
  revert mask i. induction m as [| row m IH]; intros mask i.
  - now destruct mask.
  - destruct mask as [| mrow mask]; simpl.
    + destruct ((row :: m) !! i) as [row' |] eqn:E; [| reflexivity].
      f_equal. now destruct row'.
    + destruct i as [| i]; simpl; [reflexivity | apply IH].
Qed.

Lemma pixel_map2 {A B} (f : A -> B) (m : matrix A) (r c : nat) :
  pixel (map (map f) m) r c = f <$> pixel m r c.
Proof.
  unfold pixel. change (map (map f) m) with (map f <$> m).
  rewrite list_lookup_fmap. destruct (m !! r) as [row |]; simpl; [| reflexivity].
  change (map f row) with (f <$> row). apply list_lookup_fmap.
Qed.

Lemma Qltb_inject_Z (a b : Z) : Qltb (inject_Z a) (inject_Z b) = (a <? b).
Proof.
  destruct (a <? b) eqn:E.
  - apply Qltb_lt. rewrite <- Zlt_Qlt. now apply Z.ltb_lt.
  - apply Qltb_ge. rewrite <- Zle_Qle. apply Z.ltb_ge in E. lia.
Qed.

Lemma Qle_bool_inject_Z (a b : Z) : Qle_bool (inject_Z a) (inject_Z b) = (a <=? b).
Proof.
  destruct (a <=? b) eqn:E.
  - apply Qle_bool_iff. rewrite <- Zle_Qle. now apply Z.leb_le.
  - apply Qle_bool_gt. rewrite <- Zlt_Qlt. apply Z.leb_gt in E. lia.
Qed.

(** A sample under the threshold is zero after the gate, is zero in the
    validity mask, and fails the estimator's validity test. *)
Lemma low_confidence_pixel (thr : Z) (D : matrix Q) (C : matrix Z)
    (r c : nat) (d : Q) (k : Z) :
  pixel D r c = Some d -> pixel C r c = Some k -> k < thr ->
  pixel (gated thr D C) r c = Some 0%Q /\
  pixel (conf_mask thr C) r c = Some 0 /\
  valid_px thr d k = false.
Proof.
  intros Hd Hk Hlt. repeat split.
  - assert (Hm : pixel (lt_mask thr (to_float C)) r c = Some true).
    { unfold lt_mask, to_float. rewrite !pixel_map2, Hk. simpl.
      rewrite Qltb_inject_Z. f_equal. now apply Z.ltb_lt. }
    unfold gated, pixel in *. rewrite set_where_lookup.
    destruct (D !! r) as [row |]; [| discriminate]. simpl in *.
    rewrite set_where_row_lookup, Hd.
    destruct (lt_mask thr (to_float C) !! r) as [mrow |]; [| discriminate].
    simpl in *. now rewrite Hm.
  - unfold conf_mask, ge_all, to_float. rewrite !pixel_map2, Hk. simpl.
    rewrite Qle_bool_inject_Z. f_equal.
    destruct (thr <=? k) eqn:E; [apply Z.leb_le in E; lia | reflexivity].
  - unfold valid_px. apply andb_false_iff. right. apply Z.leb_gt. lia.
Qed.

Lemma Forall3_take {A B C} (P : A -> B -> C -> Prop) l k k' (n : nat) :
  Forall3 P l k k' -> Forall3 P (take n l) (take n k) (take n k').
Proof.
  intros H. revert n. induction H; intros [| n]; simpl; constructor; auto.
Qed.

Lemma Forall3_drop {A B C} (P : A -> B -> C -> Prop) l k k' (n : nat) :
  Forall3 P l k k' -> Forall3 P (drop n l) (drop n k) (drop n k').
Proof.
  intros H. revert n. induction H; intros [| n]; simpl; try constructor; auto.
Qed.

Lemma Forall3_slice {A B C} (P : A -> B -> C -> Prop) l k k' (lo hi : Z) :
  Forall3 P l k k' -> Forall3 P (slice lo hi l) (slice lo hi k) (slice lo hi k').
Proof.
  intros H. unfold slice.
  rewrite <- (Forall3_length_lm _ _ _ _ H), <- (Forall3_length_lr _ _ _ _ H).
  now apply Forall3_take, Forall3_drop.
Qed.

Lemma same_off_low_slice2 (thr : Z) (D D' : matrix Q) (C : matrix Z)
    (x1 y1 x2 y2 : Z) :
  same_off_low thr D D' C ->
  same_off_low thr (slice2 y1 y2 x1 x2 D) (slice2 y1 y2 x1 x2 D')
    (slice2 y1 y2 x1 x2 C).
Proof.
  intros H. unfold same_off_low, slice2.
  apply (Forall3_slice _ _ _ _ y1 y2) in H.
  induction H; simpl; constructor; auto using Forall3_slice.
Qed.

Lemma roi_valid_same (thr : Z) (D D' : matrix Q) (C : matrix Z) :
  same_off_low thr D D' C -> roi_valid thr D C = roi_valid thr D' C.
Proof.
  unfold roi_valid, roi_mask, select.
  induction 1 as [| rd rd' rc D D' C Hrow _ IH]; [reflexivity |].
  simpl. rewrite IH. f_equal. clear IH.
  unfold select_row.
  induction Hrow as [| d d' k rd rd' rc Hp _ IH]; [reflexivity |].
  simpl. destruct Hp as [-> | Hlt].
  - destruct (valid_px thr d' k); simpl; now rewrite IH.
  - unfold valid_px.
    assert (E : (thr <=? k) = false) by (apply Z.leb_gt; lia).
    rewrite E, !andb_false_r. exact IH.
Qed.

Lemma gated_same (thr : Z) (D D' : matrix Q) (C : matrix Z) :
  same_off_low thr D D' C -> gated thr D C = gated thr D' C.
Proof.
  unfold gated, lt_mask, to_float.
  induction 1 as [| rd rd' rc D D' C Hrow _ IH]; [reflexivity |].
  simpl. rewrite IH. f_equal. clear IH.
  induction Hrow as [| d d' k rd rd' rc Hp _ IH]; [reflexivity |].
  simpl. rewrite IH. f_equal. destruct Hp as [-> | Hlt]; [reflexivity |].
  rewrite Qltb_inject_Z.
  assert (E : (k <? thr) = true) by now apply Z.ltb_lt.
  now rewrite E.
Qed.

(** C4: a depth sample whose confidence is below the threshold is set to
    zero by the gate, is zero in the validity mask and is left out of the
    estimator's valid set; changing such samples changes neither the gated
    depth matrix, nor the image the preprocessing produces, nor the
    estimate of any box. *)
Theorem low_confidence_excluded (thr : Z) (D : matrix Q) (C : matrix Z) :
  (forall r c d k,
     pixel D r c = Some d -> pixel C r c = Some k -> k < thr ->
     pixel (gated thr D C) r c = Some 0%Q /\
     pixel (conf_mask thr C) r c = Some 0 /\
     valid_px thr d k = false) /\
  (forall D', same_off_low thr D D' C ->
     gated thr D C = gated thr D' C /\
     (thr = CONF_THR -> forall medianBlur5 applyColorMap r,
        visual medianBlur5 applyColorMap D C r =
        visual medianBlur5 applyColorMap D' C r) /\
     forall margin_mm x1 y1 x2 y2,
       roi_valid thr (slice2 y1 y2 x1 x2 D) (slice2 y1 y2 x1 x2 C) =
       roi_valid thr (slice2 y1 y2 x1 x2 D') (slice2 y1 y2 x1 x2 C) /\
       estimate thr margin_mm D C x1 y1 x2 y2 =
       estimate thr margin_mm D' C x1 y1 x2 y2).
Proof.
  split; [intros r c d k; apply low_confidence_pixel |].
  intros D' Hs. split; [now apply gated_same |].
  split.
  { intros -> medianBlur5 applyColorMap r. unfold visual.
    now rewrite (gated_same CONF_THR D D' C Hs). }
  intros margin_mm x1 y1 x2 y2.
  assert (E : roi_valid thr (slice2 y1 y2 x1 x2 D) (slice2 y1 y2 x1 x2 C) =
              roi_valid thr (slice2 y1 y2 x1 x2 D') (slice2 y1 y2 x1 x2 C))
    by now apply roi_valid_same, same_off_low_slice2.
  split; [exact E |]. unfold estimate. now rewrite E.
Qed.

Lemma low_confidence_excluded_witness :
  (pixel (gated 30 [[900; 1200]]%Q [[10; 200]]) 0 0 = Some 0%Q /\
   pixel (conf_mask 30 [[10; 200]]) 0 0 = Some 0 /\
   valid_px 30 900 10 = false) /\
  estimate 30 250 [[900; 1200]; [0; 0]]%Q [[10; 200]; [0; 0]] 0 0 1 1 =
  estimate 30 250 [[5; 1200]; [0; 0]]%Q [[10; 200]; [0; 0]] 0 0 1 1.
Proof.
  split.
  - apply (proj1 (low_confidence_excluded 30 [[900; 1200]]%Q [[10; 200]]) 0%nat 0%nat);
      [reflexivity | reflexivity | lia].
  - apply (proj2 (low_confidence_excluded 30 [[900; 1200]; [0; 0]]%Q
                    [[10; 200]; [0; 0]]) [[5; 1200]; [0; 0]]%Q).
    repeat constructor; lia.
Defined.

(** ** Running the monad *)

Lemma bind_Done {A B} (m : M A) (k : A -> M B) (w w' : world) (a : A) :
  m w = Done a w' -> bind m k w = k a w'.
Proof. intros H. unfold bind. now rewrite H. Qed.

Lemma load_run (l : loc) (a : ndarray) (w : world) :
  heap w !! l = Some a -> load l w = Done a w.
Proof. intros H. unfold load. now rewrite H. Qed.

Lemma loadF_run (l : loc) (m : matrix Q) (w : world) :
  heap w !! l = Some (ArrF m) -> loadF l w = Done m w.
Proof. intros H. unfold loadF. now rewrite (bind_Done _ _ _ _ _ (load_run _ _ _ H)). Qed.

Lemma loadI_run (l : loc) (m : matrix Z) (w : world) :
  heap w !! l = Some (ArrI m) -> loadI l w = Done m w.
Proof. intros H. unfold loadI. now rewrite (bind_Done _ _ _ _ _ (load_run _ _ _ H)). Qed.

Lemma loadBGR_run (l : loc) (m : matrix bgr) (w : world) :
  heap w !! l = Some (ArrBGR m) -> loadBGR l w = Done m w.
Proof. intros H. unfold loadBGR. now rewrite (bind_Done _ _ _ _ _ (load_run _ _ _ H)). Qed.

Lemma np_copy_run (l : loc) (a : ndarray) (w : world) :
  heap w !! l = Some a -> np_copy l w = Done (length (heap w)) (grow w a).
Proof. intros H. unfold np_copy. now rewrite (bind_Done _ _ _ _ _ (load_run _ _ _ H)). Qed.

Lemma astype_f32_run_F (l : loc) (m : matrix Q) (w : world) :
  heap w !! l = Some (ArrF m) ->
  astype_f32 l w = Done (length (heap w)) (grow w (ArrF m)).
Proof. intros H. unfold astype_f32. now rewrite (bind_Done _ _ _ _ _ (load_run _ _ _ H)). Qed.

Lemma astype_f32_run_I (l : loc) (m : matrix Z) (w : world) :
  heap w !! l = Some (ArrI m) ->
  astype_f32 l w = Done (length (heap w)) (grow w (ArrF (to_float m))).
Proof. intros H. unfold astype_f32. now rewrite (bind_Done _ _ _ _ _ (load_run _ _ _ H)). Qed.

Lemma zero_low_confidence_run (ld lc : loc) (d c : matrix Q) (thr : Z) (w : world) :
  heap w !! ld = Some (ArrF d) -> heap w !! lc = Some (ArrF c) ->
  zero_low_confidence ld lc thr w =
  Done tt {| heap := <[ld := ArrF (set_where 0%Q d (lt_mask thr c))]> (heap w);
             out := out w |}.
Proof.
  intros Hd Hc. unfold zero_low_confidence.
  rewrite (bind_Done _ _ _ _ _ (loadF_run _ _ _ Hd)).
  now rewrite (bind_Done _ _ _ _ _ (loadF_run _ _ _ Hc)).
Qed.

Lemma np_clip_run (l : loc) (d : matrix Q) (lo hi : Q) (w : world) :
  heap w !! l = Some (ArrF d) ->
  np_clip l lo hi w = Done (length (heap w)) (grow w (ArrF (clip_all lo hi d))).
Proof. intros H. unfold np_clip. now rewrite (bind_Done _ _ _ _ _ (loadF_run _ _ _ H)). Qed.

Lemma scale_u8_run (l : loc) (d : matrix Q) (k : Q) (w : world) :
  heap w !! l = Some (ArrF d) ->
  scale_u8 l k w = Done (length (heap w)) (grow w (ArrI (scale_all k d))).
Proof. intros H. unfold scale_u8. now rewrite (bind_Done _ _ _ _ _ (loadF_run _ _ _ H)). Qed.

Lemma ge_mask_u8_run (l : loc) (c : matrix Q) (thr : Z) (w : world) :
  heap w !! l = Some (ArrF c) ->
  ge_mask_u8 l thr w = Done (length (heap w)) (grow w (ArrI (ge_all thr c))).
Proof. intros H. unfold ge_mask_u8. now rewrite (bind_Done _ _ _ _ _ (loadF_run _ _ _ H)). Qed.

Lemma gray2bgr_255_run (l : loc) (m : matrix Z) (w : world) :
  heap w !! l = Some (ArrI m) ->
  gray2bgr_255 l w = Done (length (heap w)) (grow w (ArrBGR (gray3 m))).
Proof. intros H. unfold gray2bgr_255. now rewrite (bind_Done _ _ _ _ _ (loadI_run _ _ _ H)). Qed.

Lemma bitwise_and_run (la lb : loc) (a b : matrix bgr) (w : world) :
  heap w !! la = Some (ArrBGR a) -> heap w !! lb = Some (ArrBGR b) ->
  bitwise_and la lb w =
  Done (length (heap w)) (grow w (ArrBGR (zip_with (zip_with and_px) a b))).
Proof.
  intros Ha Hb. unfold bitwise_and.
  rewrite (bind_Done _ _ _ _ _ (loadBGR_run _ _ _ Ha)).
  now rewrite (bind_Done _ _ _ _ _ (loadBGR_run _ _ _ Hb)).
Qed.

Lemma py_div_run (a : Q) (b : Z) (w : world) :
  b <> 0 -> lift (py_div a b) w = Done (a / inject_Z b)%Q w.
Proof.
  intros Hb. unfold py_div. apply Z.eqb_neq in Hb. now rewrite Hb.
Qed.

Lemma lookup_new0 {A} (h ext : list A) (a : A) :
  ext !! 0%nat = Some a -> (h ++ ext) !! length h = Some a.
Proof.
  intros H. rewrite lookup_app_r by lia. now rewrite Nat.sub_diag.
Qed.

Lemma lookup_new {A} (h ext : list A) (n : nat) (a : A) :
  ext !! n = Some a -> (h ++ ext) !! (length h + n)%nat = Some a.
Proof.
  intros H. rewrite lookup_app_r by lia.
  now replace (length h + n - length h)%nat with n by lia.
Qed.

(** Bringing a world built by successive allocations to the shape
    "initial heap, then the new arrays", and the locations to
    "length of the initial heap plus an offset". *)
Ltac heap_norm :=
  unfold grow; cbn [heap out];
  rewrite <- ?app_assoc, ?length_app;
  cbn [app length].

Ltac heap_lookup :=
  cbn [heap out grow];
  first
    [ apply lookup_app_l_Some; eassumption
    | eassumption
    | apply lookup_new0; reflexivity
    | apply lookup_new; reflexivity ].

Ltac run_step lem :=
  erewrite bind_Done by (eapply lem; heap_lookup); heap_norm.

Section PipelineFacts.

Variable medianBlur5 : matrix Z -> matrix Z.
Variable applyColorMap : matrix Z -> matrix bgr.
Variable rectangle : matrix bgr -> matrix bgr.
Variable detect : matrix bgr -> list detection.
Variable plot : matrix bgr -> list detection -> matrix bgr.

Lemma median_blur_run (l : loc) (m : matrix Z) (w : world) :
  heap w !! l = Some (ArrI m) ->
  median_blur medianBlur5 l w =
  Done (length (heap w)) (grow w (ArrI (medianBlur5 m))).
Proof. intros H. unfold median_blur. now rewrite (bind_Done _ _ _ _ _ (loadI_run _ _ _ H)). Qed.

Lemma color_map_run (l : loc) (m : matrix Z) (w : world) :
  heap w !! l = Some (ArrI m) ->
  color_map applyColorMap l w =
  Done (length (heap w)) (grow w (ArrBGR (applyColorMap m))).
Proof. intros H. unfold color_map. now rewrite (bind_Done _ _ _ _ _ (loadI_run _ _ _ H)). Qed.

Lemma preprocess_run (ld lc : loc) (r : Z) (w : world) (D : matrix Q) (C : matrix Z) :
  heap w !! ld = Some (ArrF D) -> heap w !! lc = Some (ArrI C) -> r <> 0 ->
  preprocess medianBlur5 applyColorMap ld lc r w =
  Done (length (heap w) + 11)%nat
       {| heap := heap w ++ preprocess_arrays medianBlur5 applyColorMap D C r; out := out w |}.
Proof.
  intros Hd Hc Hr. unfold preprocess.
  run_step np_copy_run.
  run_step astype_f32_run_F.
  run_step np_copy_run.
  run_step astype_f32_run_I.
  run_step zero_low_confidence_run.
  rewrite (insert_app_r (heap w) _ 1). cbn [list_insert insert].
  run_step np_clip_run.
  erewrite bind_Done by (apply py_div_run; exact Hr).
  run_step scale_u8_run.
  run_step median_blur_run.
  run_step color_map_run.
  run_step ge_mask_u8_run.
  run_step median_blur_run.
  run_step gray2bgr_255_run.
  erewrite bitwise_and_run by heap_lookup. heap_norm.
  reflexivity.
Qed.

(** With a range setting of zero the preprocessing stops at the division,
    after the gate and the clip. *)
Lemma preprocess_run_zero (ld lc : loc) (w : world) (D : matrix Q) (C : matrix Z) :
  heap w !! ld = Some (ArrF D) -> heap w !! lc = Some (ArrI C) ->
  preprocess medianBlur5 applyColorMap ld lc 0 w =
  Fail ZeroDivisionError
       {| heap := heap w ++ [ArrF D; ArrF (gated CONF_THR D C); ArrI C;
                             ArrF (to_float C);
                             ArrF (clip_all 0 0 (gated CONF_THR D C))];
          out := out w |}.
Proof.
  intros Hd Hc. unfold preprocess.
  run_step np_copy_run.
  run_step astype_f32_run_F.
  run_step np_copy_run.
  run_step astype_f32_run_I.
  run_step zero_low_confidence_run.
  rewrite (insert_app_r (heap w) _ 1). cbn [list_insert insert].
  run_step np_clip_run.
  reflexivity.
Qed.

Lemma estimate_box_run (ld lc : loc) (x1 y1 x2 y2 : Z) (w : world)
    (D : matrix Q) (C : matrix Z) :
  heap w !! ld = Some (ArrF D) -> heap w !! lc = Some (ArrI C) ->
  estimate_box ld lc x1 y1 x2 y2 w =
  Done (estimate CONF_THR MARGIN_MM D C x1 y1 x2 y2)
       (grow w (ArrF (slice2 y1 y2 x1 x2 D))).
Proof.
  intros Hd Hc. unfold estimate_box.
  erewrite bind_Done by (eapply loadF_run; eassumption).
  erewrite bind_Done by reflexivity.
  erewrite bind_Done
    by (eapply loadF_run; unfold grow; cbn [heap]; apply lookup_new0; reflexivity).
  erewrite bind_Done
    by (eapply loadI_run; unfold grow; cbn [heap]; apply lookup_app_l_Some; eassumption).
  reflexivity.
Qed.

(** C8: the preprocessing gates, clips, normalises and filters copies: after
    it the frame's depth and confidence buffers hold what they held before,
    the gated depth lives in another array, and the estimate computed next
    from the frame's buffers is the estimate of the raw depth and
    confidence. *)
Theorem preprocess_on_copies (ld lc : loc) (r : Z) (w : world)
    (D : matrix Q) (C : matrix Z) :
  heap w !! ld = Some (ArrF D) -> heap w !! lc = Some (ArrI C) ->
  let w' := match preprocess medianBlur5 applyColorMap ld lc r w with
            | Done _ w' | Fail _ w' => w'
            end in
  heap w' !! ld = Some (ArrF D) /\
  heap w' !! lc = Some (ArrI C) /\
  heap w' !! (length (heap w) + 1)%nat = Some (ArrF (gated CONF_THR D C)) /\
  forall x1 y1 x2 y2,
    exists w'',
      estimate_box ld lc x1 y1 x2 y2 w' =
        Done (estimate CONF_THR MARGIN_MM D C x1 y1 x2 y2) w'' /\
      heap w'' !! ld = Some (ArrF D) /\ heap w'' !! lc = Some (ArrI C).
Proof.
  intros Hd Hc w'.
  assert (Hw : exists ext, w' = {| heap := heap w ++ ArrF D :: ArrF (gated CONF_THR D C) :: ext;
                                   out := out w |}).
  { subst w'. destruct (Z.eq_dec r 0) as [-> | Hr].
    - rewrite (preprocess_run_zero ld lc w D C Hd Hc). eauto.
    - rewrite (preprocess_run ld lc r w D C Hd Hc Hr). unfold preprocess_arrays. eauto. }
  destruct Hw as [ext ->]. cbn [heap].
  assert (Hd' : (heap w ++ ArrF D :: ArrF (gated CONF_THR D C) :: ext) !! ld = Some (ArrF D))
    by now apply lookup_app_l_Some.
  assert (Hc' : (heap w ++ ArrF D :: ArrF (gated CONF_THR D C) :: ext) !! lc = Some (ArrI C))
    by now apply lookup_app_l_Some.
  repeat split; try assumption.
  - now apply lookup_new.
  - intros x1 y1 x2 y2. eexists. split.
    + apply estimate_box_run; cbn [heap]; eassumption.
    + unfold grow. cbn [heap]. split; now apply lookup_app_l_Some.
Qed.

(** ** The loop over the detections *)

Lemma for_each_app {A} (l1 l2 : list A) (body : A -> M unit) (w : world) :
  for_each (l1 ++ l2) body w = bind (for_each l1 body) (fun _ => for_each l2 body) w.
Proof.
  revert w. induction l1 as [| x l1 IH]; intros w; simpl; [reflexivity |].
  unfold bind in *. destruct (body x w) as [[] w1 | e w1]; [apply IH | reflexivity].
Qed.

Lemma box_body_degenerate (ld lc : loc) (H W : Z) (b : detection) (w : world) :
  degenerate (clamp_box H W b) = true -> box_body ld lc H W b w = Done tt w.
Proof.
  intros Hdeg. unfold box_body.
  destruct (clamp_box H W b) as [[[x1 y1] x2] y2]. now rewrite Hdeg.
Qed.

(** C7: the corners of a box are clamped into the frame; a detection whose
    clamped box has [x2 <= x1] or [y2 <= y1] leaves the world as it is (no
    estimate, no output) and the loop goes on with the detections after it;
    the box (50, 50, 50, 80) is such a box in every frame. *)
Theorem degenerate_box_skipped (ld lc : loc) (H W : Z) (b : detection) :
  (0 < H -> 0 < W ->
   let '(x1, y1, x2, y2) := clamp_box H W b in
   0 <= x1 <= W - 1 /\ 0 <= x2 <= W - 1 /\ 0 <= y1 <= H - 1 /\ 0 <= y2 <= H - 1) /\
  (degenerate (clamp_box H W b) = true ->
   (forall w, box_body ld lc H W b w = Done tt w) /\
   (forall pre rest w,
      for_each (pre ++ b :: rest) (box_body ld lc H W) w =
      for_each (pre ++ rest) (box_body ld lc H W) w)) /\
  (xyxy b = (50, 50, 50, 80)%Q -> degenerate (clamp_box H W b) = true).
Proof.
  split; [| split].
  - intros HH HW. unfold clamp_box. destruct (xyxy b) as [[[x1 y1] x2] y2].
    unfold clamp. lia.
  - intros Hdeg. split; [intros w; now apply box_body_degenerate |].
    intros pre rest w. rewrite !for_each_app. unfold bind.
    destruct (for_each pre (box_body ld lc H W) w) as [[] w1 | e w1]; [| reflexivity].
    simpl. unfold bind. now rewrite box_body_degenerate.
  - intros Hb. unfold clamp_box. rewrite Hb. unfold degenerate.
    apply orb_true_iff. left. apply Z.leb_le. lia.
Qed.

(** ** A detection that is not skipped *)

Lemma box_body_run (ld lc : loc) (H W : Z) (b : detection) (w : world)
    (D : matrix Q) (C : matrix Z) :
  heap w !! ld = Some (ArrF D) -> heap w !! lc = Some (ArrI C) ->
  degenerate (clamp_box H W b) = false ->
  let '(x1, y1, x2, y2) := clamp_box H W b in
  let dist_cm := estimate CONF_THR MARGIN_MM D C x1 y1 x2 y2 in
  let cls_id := py_int (cls b) in
  let h1 := heap w ++ [ArrF (slice2 y1 y2 x1 x2 D)] in
  let o1 := out w ++ [PrintClsId cls_id] in
  box_body ld lc H W b w =
  match classify cls_id dist_cm with
  | Ok tier =>
      Done tt {| heap := h1;
                 out := (o1 ++ alert_events tier dist_cm) ++
                        [PrintSummary cls_id (conf b) dist_cm] |}
  | Raise e => Fail e {| heap := h1; out := o1 |}
  end.
Proof.
  intros Hd Hc Hdeg. unfold box_body.
  destruct (clamp_box H W b) as [[[x1 y1] x2] y2]. rewrite Hdeg.
  rewrite (bind_Done _ _ _ _ _ (estimate_box_run ld lc x1 y1 x2 y2 w D C Hd Hc)).
  erewrite bind_Done by reflexivity.
  unfold grow, emit at 1. cbn [heap out].
  destruct (classify (py_int (cls b)) (estimate CONF_THR MARGIN_MM D C x1 y1 x2 y2))
    as [tier | e]; reflexivity.
Qed.

(** A detection whose box holds no pixel at or above the confidence
    threshold gets no estimate, and the alert chain then raises: the loop
    over the detections, and the frame cycle with it, is left by a
    [TypeError] after the class id has been printed and before any alert. *)
Lemma box_body_no_estimate (ld lc : loc) (b : detection) (w : world)
    (D : matrix Q) (C : matrix Z) :
  heap w !! ld = Some (ArrF D) -> heap w !! lc = Some (ArrI C) ->
  let '(H, W) := shape D in
  degenerate (clamp_box H W b) = false ->
  (let '(x1, y1, x2, y2) := clamp_box H W b in
   forall r c k, in_box x1 y1 x2 y2 r c -> pixel C r c = Some k -> k < CONF_THR) ->
  exists w', box_body ld lc H W b w = Fail TypeError w' /\
             out w' = out w ++ [PrintClsId (py_int (cls b))].
Proof.
  intros Hd Hc. destruct (shape D) as [H W] eqn:Es. intros Hdeg Hlow.
  pose proof (box_body_run ld lc H W b w D C Hd Hc Hdeg) as Hrun.
  pose proof (clamp_box_nonneg H W b) as Hnn.
  destruct (clamp_box H W b) as [[[x1 y1] x2] y2].
  destruct Hnn as (Hx1 & Hy1 & Hx2 & Hy2).
  assert (E : estimate CONF_THR MARGIN_MM D C x1 y1 x2 y2 = None).
  { apply estimate_None_pixels; try assumption.
    intros r c Hbox (d & k & _ & Hk & _ & Hthr).
    specialize (Hlow r c k Hbox Hk). lia. }
  cbv zeta in Hrun. rewrite E, classify_None in Hrun.
  eexists. split; [exact Hrun | reflexivity].
Qed.

(** ** The run *)

Abbreviation loop' := (loop medianBlur5 applyColorMap rectangle detect plot).
Abbreviation main' := (main medianBlur5 applyColorMap rectangle detect plot).
Abbreviation run' := (run medianBlur5 applyColorMap rectangle detect plot).

Lemma loop_idle (r : Z) (c : cycle) (cs : list cycle) (w : world) :
  idle c -> loop' r (c :: cs) w = loop' r cs w.
Proof.
  intros [Hf (k & Hk & Hq)]. simpl. unfold request_frame, wait_key.
  rewrite Hf, Hk. unfold bind, ret. apply Z.eqb_neq in Hq. now rewrite Hq.
Qed.

Lemma loop_idle_prefix (r : Z) (pre cs : list cycle) (w : world) :
  Forall idle pre -> loop' r (pre ++ cs) w = loop' r cs w.
Proof.
  induction 1 as [| c pre Hc _ IH]; [reflexivity |].
  simpl app. now rewrite loop_idle.
Qed.


Lemma bind_emit {B} (ev : event) (k : unit -> M B) (w : world) :
  bind (emit ev) k w = k tt {| heap := heap w; out := out w ++ [ev] |}.
Proof. reflexivity. Qed.

Lemma bind_ret {A B} (a : A) (k : A -> M B) (w : world) :
  bind (ret a) k w = k a w.
Proof. reflexivity. Qed.



Lemma main_started (e : env) (w : world) :
  open_ret e = 0 -> start_ret e = 0 ->
  main' e w =
  match loop' (range e) (cycles e) (started e w) with
  | Done true w' =>
      Done true {| heap := heap w'; out := out w' ++ [CamStop; CamClose; OutRelease] |}
  | Done false w' => Done false w'
  | Fail KeyboardInterrupt w' =>
      Done true {| heap := heap w';
                   out := out w' ++ [CamStop; CamClose; OutRelease;
                                     PrintLine "Exiting..."] |}
  | Fail ex w' => Fail ex w'
  end.
Proof.
  intros Ho Hs.
  assert (Hpre : main' e w =
    try_except
      (bind (loop' (range e) (cycles e))
         (fun quit : bool =>
            if quit then bind shutdown (fun _ => ret true) else ret false))
      (fun ex => match ex with
                 | KeyboardInterrupt =>
                     Some (bind shutdown (fun _ =>
                             bind (emit (PrintLine "Exiting...")) (fun _ => ret true)))
                 | _ => None
                 end)
      (started e w)).
  { unfold main. rewrite Ho, Hs. cbn [Z.eqb negb].
    repeat (rewrite bind_emit; cbn beta; cbn [heap out]).
    destruct (vga e) eqn:Ev;
      repeat (rewrite ?bind_emit, ?bind_ret; cbn beta; cbn [heap out]);
      f_equal; unfold started, started_output, banner;
      rewrite Ev, <- !app_assoc; reflexivity. }
  rewrite Hpre. clear Hpre. generalize (started e w). intros w0.
  unfold try_except, bind.
  destruct (loop' (range e) (cycles e) w0) as [[|] w' | ex w'].
  - unfold shutdown, bind, emit, ret. cbn [heap out]. now rewrite <- !app_assoc.
  - reflexivity.
  - destruct ex; try reflexivity.
    unfold shutdown, bind, emit, ret. cbn [heap out]. now rewrite <- !app_assoc.
Qed.




End PipelineFacts.

(** ** The scenarios of the specification, run *)

(** The 5th percentile of the scenario's depths under linear interpolation. *)
Example scenario_percentile :
  (np_percentile [1400; 1420; 1430; 1450; 1460]%Q 5 == 1404)%Q.
Proof. reflexivity. Qed.

(** The person at 143 cm: one frame, one box of class 0, then the quit key. *)
Example person_scenario_run :
  exists tr,
    example_run [box_at 0 0 5 1 0] (one_frame scenario_depth scenario_conf ord_q)
      = (Exited 0, tr) /\
    alerts tr = ["Person ahead at 143 centimeters"%string].
Proof. eexists. split; [vm_compute; reflexivity | reflexivity]. Qed.

(** A degenerate box before the person's box changes nothing. *)
Example degenerate_then_person_run :
  example_run [box_at 50 50 50 80 0; box_at 0 0 5 1 0]
    (one_frame scenario_depth scenario_conf ord_q) =
  example_run [box_at 0 0 5 1 0] (one_frame scenario_depth scenario_conf ord_q).
Proof. vm_compute. reflexivity. Qed.

(** C1, on the code: for every class id the alert chain raises [TypeError]
    when the distance is [None] instead of treating it as "no alert"; a
    box over pixels that are all below the confidence threshold has no
    estimate, its detection ends the loop with that error, and the run
    ends with status 1, the camera neither stopped nor closed. *)
Theorem absent_distance_raises :
  (forall cls_id, classify cls_id None = Raise TypeError) /\
  estimate CONF_THR MARGIN_MM scenario_depth low_conf 0 0 5 1 = None /\
  box_body 0%nat 1%nat 2 6 (box_at 0 0 5 1 0)
    {| heap := [ArrF scenario_depth; ArrI low_conf]; out := [] |} =
  Fail TypeError
    {| heap := [ArrF scenario_depth; ArrI low_conf;
                ArrF [[1400; 1420; 1430; 1450; 1460]]%Q];
       out := [PrintClsId 0] |} /\
  example_run [box_at 0 0 5 1 0] (one_frame scenario_depth low_conf ord_q) =
  (Exited 1,
   started_output (one_frame scenario_depth low_conf ord_q) ++ [PrintClsId 0]).
Proof.
  split; [exact classify_None |].
  split; [reflexivity |].
  split; vm_compute; reflexivity.
Qed.

Lemma preprocess_on_copies_witness :
  let w := {| heap := [ArrF scenario_depth; ArrI low_conf]; out := [] |} in
  let w' := match preprocess no_blur gray_map 0%nat 1%nat 4000 w with
            | Done _ w' | Fail _ w' => w'
            end in
  heap w' !! 0%nat = Some (ArrF scenario_depth) /\
  heap w' !! 1%nat = Some (ArrI low_conf) /\
  heap w' !! 3%nat = Some (ArrF (gated CONF_THR scenario_depth low_conf)) /\
  forall x1 y1 x2 y2,
    exists w'',
      estimate_box 0%nat 1%nat x1 y1 x2 y2 w' =
        Done (estimate CONF_THR MARGIN_MM scenario_depth low_conf x1 y1 x2 y2) w'' /\
      heap w'' !! 0%nat = Some (ArrF scenario_depth) /\
      heap w'' !! 1%nat = Some (ArrI low_conf).
Proof.
  apply (preprocess_on_copies no_blur gray_map 0%nat 1%nat 4000
           {| heap := [ArrF scenario_depth; ArrI low_conf]; out := [] |}
           scenario_depth low_conf); reflexivity.
Defined.

Lemma degenerate_box_skipped_witness :
  (let '(x1, y1, x2, y2) := clamp_box 180 240 (box_at 50 50 50 80 0) in
   0 <= x1 <= 240 - 1 /\ 0 <= x2 <= 240 - 1 /\
   0 <= y1 <= 180 - 1 /\ 0 <= y2 <= 180 - 1) /\
  ((forall w, box_body 0%nat 1%nat 180 240 (box_at 50 50 50 80 0) w = Done tt w) /\
   (forall pre rest w,
      for_each (pre ++ box_at 50 50 50 80 0 :: rest) (box_body 0%nat 1%nat 180 240) w =
      for_each (pre ++ rest) (box_body 0%nat 1%nat 180 240) w)) /\
  degenerate (clamp_box 180 240 (box_at 50 50 50 80 0)) = true.
Proof.
  destruct (degenerate_box_skipped 0%nat 1%nat 180 240 (box_at 50 50 50 80 0))
    as (Hclamp & Hskip & Hdeg).
  split; [apply Hclamp; lia |].
  split; [apply Hskip; reflexivity | apply Hdeg; reflexivity].
Defined.



(** ** The rectangles and the callbacks *)

Lemma around_rect (x y : Z) :
  UserRect.rect (around x y) = (x - 4, y - 4, 8, 8) /\
  UserRect.empty (around x y) = false.
Proof.
  unfold UserRect.rect, UserRect.empty, around. simpl. split.
  - repeat f_equal; lia.
  - apply andb_false_iff. left. apply Z.eqb_neq. lia.
Qed.




(** The value of the last trackbar move of a run, if any. *)
Lemma ui_run_app (es1 es2 : list ui_event) (g : globals) :
  ui_run (es1 ++ es2) g = ui_run es2 (ui_run es1 g).
Proof. unfold ui_run. apply foldl_app. Qed.

Lemma ui_run_mouse_confidence (es : list ui_event) (g : globals) :
  Forall (fun e => exists ev x y, e = Mouse ev x y) es ->
  confidence_value (ui_run es g) = confidence_value g.
Proof.
  intros H. revert g. induction H as [| e es (ev & x & y & ->) _ IH]; intros g;
    [reflexivity |].
  unfold ui_run in *. simpl. rewrite IH. unfold on_mouse.
  destruct (ev =? EVENT_LBUTTONDOWN); [reflexivity |].
  destruct (ev =? EVENT_LBUTTONUP); reflexivity.
Qed.

(** X2: the threshold of the preview is the value of the last trackbar move,
    whatever mouse events come after it; without a trackbar move it stays
    what it was, and neither rectangle is touched by the trackbar. *)
Theorem trackbar_sets_threshold (es1 es2 : list ui_event) (v : Z) (g : globals) :
  Forall (fun e => exists ev x y, e = Mouse ev x y) es2 ->
  confidence_value (ui_run (es1 ++ Trackbar v :: es2) g) = v /\
  confidence_value (ui_run es2 g) = confidence_value g /\
  selectRect (on_confidence_changed v g) = selectRect g /\
  followRect (on_confidence_changed v g) = followRect g.
Proof.
  intros H. split; [| split; [now apply ui_run_mouse_confidence | split; reflexivity]].
  rewrite ui_run_app. change (Trackbar v :: es2) with ([Trackbar v] ++ es2).
  rewrite ui_run_app. now rewrite ui_run_mouse_confidence.
Qed.

Lemma trackbar_sets_threshold_witness :
  confidence_value
    (ui_run ([Mouse 4 10 10] ++ Trackbar 55 :: [Mouse 0 1 1; Mouse 4 20 20])
       initial_globals) = 55.
Proof.
  apply (trackbar_sets_threshold [Mouse 4 10 10] [Mouse 0 1 1; Mouse 4 20 20] 55
           initial_globals).
  repeat constructor; eauto.
Defined.

(** X3: for a mouse position at least 4 pixels from the left and the top
    edge, the samples under the rectangle are the 8 rows of 8 pixels that
    start at [(y-4, x-4)]; pixels that fall outside the frame are absent. *)
Theorem rect_slice_window {A} (a : matrix A) (x y : Z) (i j : nat) :
  4 <= x -> 4 <= y ->
  pixel (UserRect.slice (around x y) a) i j =
  if decide (i < 8 /\ j < 8)%nat
  then pixel a (Z.to_nat (y - 4) + i) (Z.to_nat (x - 4) + j)
  else None.
Proof.
  intros Hx Hy. unfold UserRect.slice, around. simpl.
  rewrite pixel_slice2 by lia.
  destruct (decide (y - 4 + Z.of_nat i < y + 4 /\ x - 4 + Z.of_nat j < x + 4));
    destruct (decide (i < 8 /\ j < 8)%nat); try reflexivity; lia.
Qed.

Lemma rect_slice_window_witness :
  pixel (UserRect.slice (around 5 4) scenario_depth) 0 0 =
  if decide (0 < 8 /\ 0 < 8)%nat
  then pixel scenario_depth (Z.to_nat (4 - 4) + 0) (Z.to_nat (5 - 4) + 0)
  else None.
Proof. apply (rect_slice_window scenario_depth 5 4 0 0); lia. Defined.

Lemma slice_wraps_empty {A} (l : list A) (x : Z) :
  0 <= x < 4 -> (8 <= length l)%nat -> slice (x - 4) (x + 4) l = [].
Proof.
  intros Hx Hl. unfold slice, slice_bound.
  destruct (x - 4 <? 0) eqn:E1; [| apply Z.ltb_ge in E1; lia].
  destruct (x + 4 <? 0) eqn:E2; [apply Z.ltb_lt in E2; lia |].
  replace (_ - _)%nat with 0%nat by lia. apply take_0.
Qed.

Lemma np_mean_no_samples (a : matrix Q) :
  Forall (fun row => row = []) a -> np_mean a = None.
Proof.
  intros H. unfold np_mean.
  assert (E : concat a = []).
  { induction H as [| row a -> _ IH]; [reflexivity | exact IH]. }
  now rewrite E.
Qed.

(** X4: a selection made less than 4 pixels from the left edge (or from the
    top edge) of a frame at least 8 pixels wide (high) selects no sample:
    the negative start of the slice counts from the far edge, and the
    distance reported for the rectangle is the mean of nothing. *)
Theorem selection_near_edge_is_empty (D : matrix Q) (x y : Z) (g : globals) :
  (0 <= x < 4 /\ Forall (fun row => (8 <= length row)%nat) D) \/
  (0 <= y < 4 /\ (8 <= length D)%nat) ->
  select_rect_distance (on_mouse EVENT_LBUTTONUP x y g) D = Some None.
Proof.
  intros H. unfold select_rect_distance, on_mouse. simpl.
  rewrite (proj2 (around_rect x y)). simpl. f_equal.
  apply np_mean_no_samples. unfold UserRect.slice, around, slice2. simpl.
  destruct H as [[Hx Hrows] | [Hy Hlen]].
  - apply Forall_forall. intros row Hin.
    apply list_elem_of_In, in_map_iff in Hin. destruct Hin as (r0 & <- & Hr0).
    apply slice_wraps_empty; [assumption |].
    rewrite Forall_forall in Hrows. apply Hrows.
    unfold slice in Hr0. apply list_elem_of_In in Hr0.
    now apply subseteq_take, subseteq_drop in Hr0.
  - rewrite slice_wraps_empty by assumption. constructor.
Qed.

Lemma selection_near_edge_is_empty_witness :
  select_rect_distance (on_mouse EVENT_LBUTTONUP 2 30 initial_globals)
    [replicate 8 1000%Q; replicate 8 900%Q] = Some None.
Proof.
  apply (selection_near_edge_is_empty [replicate 8 1000%Q; replicate 8 900%Q] 2 30
           initial_globals).
  left. split; [lia | repeat constructor].
Defined.

(** ** The preview helper *)

Lemma same_shape_rows {A B} (m : matrix A) (k : matrix B) :
  same_shape m k = true <-> same_rows m k.
Proof.
  unfold same_shape, same_rows. revert k.
  induction m as [| r m IH]; intros [| s k]; simpl.
  - split; [constructor | reflexivity].
  - split; [discriminate | inversion 1].
  - split; [discriminate | inversion 1].
  - specialize (IH k). split.
    + intros H. apply andb_true_iff in H as [Hl H].
      apply andb_true_iff in H as [Hr Hrest].
      constructor; [now apply Nat.eqb_eq |].
      apply IH. apply andb_true_iff. split; assumption.
    + intros H. inversion H as [| ? ? ? ? Hrs Hmk]; subst.
      apply IH in Hmk. apply andb_true_iff in Hmk as [Hl Hrest].
      apply andb_true_iff. split; [exact Hl |].
      apply andb_true_iff. split; [now apply Nat.eqb_eq | exact Hrest].
Qed.

Lemma below_rows (v : Z) (C : matrix Z) : same_rows (below v C) C.
Proof.
  unfold same_rows, below. induction C as [| r C IH]; simpl; constructor;
    [apply length_map | exact IH].
Qed.

Lemma pixel_put_where {A} (v : A) (a : matrix A) (mask : matrix bool) (i j : nat) :
  pixel (put_where v a mask) i j =
  match pixel a i j, pixel mask i j with
  | Some p, Some b => Some (if b then v else p)
  | _, _ => None
  end.
Proof.
  unfold pixel, put_where. rewrite lookup_zip_with.
  destruct (a !! i) as [r |]; simpl; [| reflexivity].
  destruct (mask !! i) as [s |]; simpl.
  - rewrite lookup_zip_with. destruct (r !! j); simpl; [| reflexivity].
    destruct (s !! j); reflexivity.
  - destruct (r !! j); reflexivity.
Qed.

Lemma put_where_rows {A} (v : A) (a : matrix A) (mask : matrix bool) :
  same_rows a mask -> same_rows (put_where v a mask) a.
Proof.
  unfold same_rows, put_where. induction 1 as [| r s a mask Hrs _ IH]; simpl;
    constructor; [now apply length_zip_with_l_eq | exact IH].
Qed.

Lemma same_rows_trans {A B C} (m : matrix A) (k : matrix B) (n : matrix C) :
  same_rows m k -> same_rows k n -> same_rows m n.
Proof.
  unfold same_rows. intros H. revert n.
  induction H as [| r s m k Hrs _ IH]; intros n Hn; inversion Hn; subst;
    constructor; [congruence | now apply IH].
Qed.

Lemma same_rows_sym {A B} (m : matrix A) (k : matrix B) :
  same_rows m k -> same_rows k m.
Proof. unfold same_rows. induction 1; constructor; auto. Qed.

Lemma insert_new0 {A} (h : list A) (a v : A) :
  <[length h := v]> (h ++ [a]) = h ++ [v].
Proof.
  pose proof (insert_app_r h [a] 0 v) as H.
  now rewrite Nat.add_0_r in H.
Qed.

Lemma getPreviewRGB_run (g : globals) (lp lc : loc) (w : world)
    (P : matrix bgr) (C : matrix Z) :
  heap w !! lp = Some (ArrBGR P) -> heap w !! lc = Some (ArrI C) ->
  getPreviewRGB g lp lc w =
  if same_shape P (below (confidence_value g) C) then
    Done (length (heap w))
      {| heap := heap w ++
           [ArrBGR (put_where (0, 0, 0) P (below (confidence_value g) C))];
         out := out w |}
  else Fail LookupError {| heap := heap w ++ [ArrBGR P]; out := out w |}.
Proof.
  intros Hp Hc. unfold getPreviewRGB.
  erewrite bind_Done by (eapply loadBGR_run; eassumption).
  erewrite bind_Done by reflexivity.
  erewrite bind_Done
    by (eapply loadI_run; cbn [heap]; apply lookup_app_l_Some; eassumption).
  erewrite bind_Done
    by (eapply loadBGR_run; cbn [heap]; apply lookup_new0; reflexivity).
  destruct (same_shape P (below (confidence_value g) C)); [| reflexivity].
  unfold bind, store, ret. cbn [heap out].
  now rewrite insert_new0.
Qed.

(** X5: on a preview and a confidence array of one shape, [getPreviewRGB]
    returns a new array of that shape in which a pixel is black where the
    confidence is below the current threshold and is the preview's pixel
    elsewhere; the preview and the confidence it was given are left as they
    were. *)
Theorem getPreviewRGB_blacks_low (g : globals) (lp lc : loc) (w : world)
    (P : matrix bgr) (C : matrix Z) :
  heap w !! lp = Some (ArrBGR P) -> heap w !! lc = Some (ArrI C) ->
  same_rows P C ->
  exists w' R,
    getPreviewRGB g lp lc w = Done (length (heap w)) w' /\
    heap w' !! lp = Some (ArrBGR P) /\
    heap w' !! lc = Some (ArrI C) /\
    heap w' !! length (heap w) = Some (ArrBGR R) /\
    same_rows R P /\
    forall i j p k,
      pixel P i j = Some p -> pixel C i j = Some k ->
      pixel R i j = Some (if k <? confidence_value g then (0, 0, 0) else p).
Proof.
  intros Hp Hc Hs.
  assert (Hm : same_rows P (below (confidence_value g) C))
    by (eapply same_rows_trans; [exact Hs | apply same_rows_sym, below_rows]).
  rewrite (getPreviewRGB_run g lp lc w P C Hp Hc).
  rewrite (proj2 (same_shape_rows _ _) Hm).
  eexists. eexists. split; [reflexivity |]. cbn [heap].
  split; [now apply lookup_app_l_Some |].
  split; [now apply lookup_app_l_Some |].
  split; [now apply lookup_new0 |].
  split; [now apply put_where_rows |].
  intros i j p k Hpx Hk. rewrite pixel_put_where, Hpx.
  unfold below. now rewrite pixel_map2, Hk.
Qed.

Lemma getPreviewRGB_blacks_low_witness :
  exists w' R,
    getPreviewRGB initial_globals 0%nat 1%nat
      {| heap := [ArrBGR [[(1, 2, 3); (4, 5, 6)]]; ArrI [[10; 200]]]; out := [] |}
    = Done 2%nat w' /\
    heap w' !! 0%nat = Some (ArrBGR [[(1, 2, 3); (4, 5, 6)]]) /\
    heap w' !! 1%nat = Some (ArrI [[10; 200]]) /\
    heap w' !! 2%nat = Some (ArrBGR R) /\
    same_rows R [[(1, 2, 3); (4, 5, 6)]] /\
    forall i j p k,
      pixel [[(1, 2, 3); (4, 5, 6)]] i j = Some p -> pixel [[10; 200]] i j = Some k ->
      pixel R i j = Some (if k <? 30 then (0, 0, 0) else p).
Proof.
  apply (getPreviewRGB_blacks_low initial_globals 0%nat 1%nat
           {| heap := [ArrBGR [[(1, 2, 3); (4, 5, 6)]]; ArrI [[10; 200]]]; out := [] |}
           [[(1, 2, 3); (4, 5, 6)]] [[10; 200]]);
    [reflexivity | reflexivity | repeat constructor].
Defined.

(** X6: a confidence array whose shape is not the preview's makes the masked
    assignment fail: [getPreviewRGB] raises after making its copy, and the
    preview it was given is unchanged. *)
Theorem getPreviewRGB_shape_mismatch (g : globals) (lp lc : loc) (w : world)
    (P : matrix bgr) (C : matrix Z) :
  heap w !! lp = Some (ArrBGR P) -> heap w !! lc = Some (ArrI C) ->
  ~ same_rows P C ->
  exists w',
    getPreviewRGB g lp lc w = Fail LookupError w' /\
    heap w' !! lp = Some (ArrBGR P) /\ out w' = out w.
Proof.
  intros Hp Hc Hs.
  rewrite (getPreviewRGB_run g lp lc w P C Hp Hc).
  destruct (same_shape P (below (confidence_value g) C)) eqn:E.
  - exfalso. apply Hs. apply same_shape_rows in E.
    eapply same_rows_trans; [exact E | apply below_rows].
  - eexists. split; [reflexivity |]. cbn [heap out].
    split; [now apply lookup_app_l_Some | reflexivity].
Qed.

Lemma getPreviewRGB_shape_mismatch_witness :
  exists w',
    getPreviewRGB initial_globals 0%nat 1%nat
      {| heap := [ArrBGR [[(1, 2, 3); (4, 5, 6)]]; ArrI [[10]]]; out := [] |}
    = Fail LookupError w' /\
    heap w' !! 0%nat = Some (ArrBGR [[(1, 2, 3); (4, 5, 6)]]) /\ out w' = [].
Proof.
  apply (getPreviewRGB_shape_mismatch initial_globals 0%nat 1%nat
           {| heap := [ArrBGR [[(1, 2, 3); (4, 5, 6)]]; ArrI [[10]]]; out := [] |}
           [[(1, 2, 3); (4, 5, 6)]] [[10]]);
    [reflexivity | reflexivity |].
  intros H. inversion H; subst. discriminate.
Defined.

(** ** The alert bands, in full *)

Lemma Zeqb_cases (cls_id : Z) :
  (cls_id = 0 /\ (cls_id =? 0) = true) \/ (cls_id <> 0 /\ (cls_id =? 0) = false).
Proof.
  destruct (cls_id =? 0) eqn:E; [left | right]; split; try reflexivity.
  - now apply Z.eqb_eq.
  - now apply Z.eqb_neq.
Qed.

(** X7: the tier of a detection with a distance, band by band.  A person
    gets a warning from 130 cm up to 250 cm and the stop alert below 45 cm,
    and nothing in between: from 45 cm up to 130 cm a person raises no
    alert.  Any other class gets a warning from 45 cm up to 150 cm. *)
Theorem classify_bands (cls_id : Z) (d : Q) :
  (classify cls_id (Some d) = Ok CriticalStop <-> (d < 45)%Q) /\
  (classify cls_id (Some d) = Ok PersonWarning <->
     cls_id = 0 /\ (130 <= d)%Q /\ (d < 250)%Q) /\
  (classify cls_id (Some d) = Ok ObstacleWarning <->
     cls_id <> 0 /\ (45 <= d)%Q /\ (d < 150)%Q) /\
  (classify cls_id (Some d) = Ok TierNone <->
     (cls_id = 0 /\ ((45 <= d)%Q /\ (d < 130)%Q \/ (250 <= d)%Q)) \/
     (cls_id <> 0 /\ (150 <= d)%Q)).
Proof.
  rewrite classify_table_agree. unfold classify_table.
  destruct (Zeqb_cases cls_id) as [[Hc ->] | [Hc ->]]; simpl;
    cmp_cases; simpl;
    repeat split; intros; try discriminate; try tauto; try lra;
    repeat match goal with
    | H : _ /\ _ |- _ => destruct H
    | H : _ \/ _ |- _ => destruct H
    end; try congruence; try lra;
    try (left; split; [assumption |]; first [left; split; lra | right; lra]);
    try (right; split; [assumption | lra]).
Qed.

(** ** The number spoken *)

Lemma round_half_even_near (d : Q) :
  (inject_Z (round_half_even d) - (1 # 2) <= d)%Q /\
  (d <= inject_Z (round_half_even d) + (1 # 2))%Q.
Proof.
  unfold round_half_even.
  pose proof (Qfloor_le d) as Hlo. pose proof (Qlt_floor d) as Hhi.
  rewrite inject_Z_plus in Hhi. change (inject_Z 1) with 1%Q in Hhi.
  destruct (Qcompare (d - inject_Z (Qfloor d)) (1 # 2)) eqn:E.
  - apply Qeq_alt in E.
    destruct (Z.even (Qfloor d)); [| rewrite inject_Z_plus; change (inject_Z 1) with 1%Q];
      split; lra.
  - apply Qlt_alt in E. split; lra.
  - apply Qgt_alt in E. rewrite inject_Z_plus. change (inject_Z 1) with 1%Q.
    split; lra.
Qed.

Lemma inject_Z_lt_inv (a b : Z) : (inject_Z a < inject_Z b)%Q -> a < b.
Proof. now rewrite <- Zlt_Qlt. Qed.

(** X8: the number in a spoken distance is the distance rounded to the
    nearest integer (ties to even), so it is within half a centimetre of the
    estimate; the text of a person warning names a number from 130 to 250
    (250 itself when the estimate is 249.5 or more) and that of an obstacle
    warning a number from 45 to 150. *)
Theorem spoken_number (d : Q) :
  (0 <= d)%Q ->
  person_text d =
    ("Person ahead at " ++ pretty (round_half_even d) ++ " centimeters")%string /\
  obstacle_text d =
    ("Obstacle detected ahead at distance " ++ pretty (round_half_even d) ++
     " centimeters")%string /\
  (inject_Z (round_half_even d) - (1 # 2) <= d)%Q /\
  (d <= inject_Z (round_half_even d) + (1 # 2))%Q /\
  ((130 <= d)%Q -> (d < 250)%Q -> 130 <= round_half_even d <= 250) /\
  ((45 <= d)%Q -> (d < 150)%Q -> 45 <= round_half_even d <= 150).
Proof.
  intros Hd. destruct (round_half_even_near d) as [Hlo Hhi].
  assert (Hf : format_0f d = pretty (round_half_even d)).
  { unfold format_0f. apply Qltb_ge in Hd. now rewrite Hd. }
  unfold person_text, obstacle_text. rewrite Hf.
  split; [reflexivity |]. split; [reflexivity |].
  split; [exact Hlo |]. split; [exact Hhi |].
  split; intros H1 H2.
  - assert (129 < round_half_even d)
      by (apply inject_Z_lt_inv; change (inject_Z 129) with 129%Q; lra).
    assert (round_half_even d < 251)
      by (apply inject_Z_lt_inv; change (inject_Z 251) with 251%Q; lra).
    lia.
  - assert (44 < round_half_even d)
      by (apply inject_Z_lt_inv; change (inject_Z 44) with 44%Q; lra).
    assert (round_half_even d < 151)
      by (apply inject_Z_lt_inv; change (inject_Z 151) with 151%Q; lra).
    lia.
Qed.

Lemma spoken_number_witness :
  person_text (2495 # 10) =
    ("Person ahead at " ++ pretty (round_half_even (2495 # 10)) ++ " centimeters")%string /\
  130 <= round_half_even (2495 # 10) <= 250.
Proof.
  destruct (spoken_number (2495 # 10)) as (Hp & _ & _ & _ & Hb & _);
    [vm_compute; discriminate |].
  split; [exact Hp |]. apply Hb; vm_compute; [discriminate | reflexivity].
Defined.

Example spoken_250_inside_band :
  classify 0 (Some (2496 # 10)%Q) = Ok PersonWarning /\
  person_text (2496 # 10) = "Person ahead at 250 centimeters"%string.
Proof. split; reflexivity. Qed.

(** ** Where the estimate lies *)










(** ** What a box reads *)

Lemma omap_ext_in {A B} (f g : A -> option B) (l : list A) :
  (forall x, In x l -> f x = g x) -> omap f l = omap g l.
Proof.
  induction l as [| a l IH]; intros H; [reflexivity |].
  assert (IH' : omap f l = omap g l)
    by (apply IH; intros x Hx; apply H; now right).
  rewrite !omap_cons_eq, (H a) by now left.
  destruct (g a); [f_equal |]; exact IH'.
Qed.

Lemma flat_map_ext_in {A B} (f g : A -> list B) (l : list A) :
  (forall x, In x l -> f x = g x) -> flat_map f l = flat_map g l.
Proof.
  induction l as [| a l IH]; intros H; simpl; [reflexivity |].
  rewrite (H a) by now left. f_equal. apply IH. intros x Hx. apply H. now right.
Qed.

Lemma estimate_local (conf_thr margin_mm : Z) (D D' : matrix Q) (C C' : matrix Z)
    (x1 y1 x2 y2 : Z) :
  0 <= x1 -> 0 <= y1 -> 0 <= x2 -> 0 <= y2 ->
  (forall r c, in_box x1 y1 x2 y2 r c ->
     pixel D r c = pixel D' r c /\ pixel C r c = pixel C' r c) ->
  estimate conf_thr margin_mm D C x1 y1 x2 y2 =
  estimate conf_thr margin_mm D' C' x1 y1 x2 y2.
Proof.
  intros Hx1 Hy1 Hx2 Hy2 Hsame. unfold estimate.
  rewrite !roi_valid_spec by assumption. f_equal. unfold spec_valid.
  apply flat_map_ext_in. intros r Hr. apply in_seq in Hr.
  apply omap_ext_in. intros c Hc. apply in_seq in Hc.
  unfold valid_depth.
  destruct (Hsame r c) as [-> ->]; [unfold in_box; lia | reflexivity].
Qed.

(** X10: the estimate of a detection depends on the frame only through the
    pixels of its clamped box: two frames that agree there, in depth and in
    confidence, give the same estimate. *)
Theorem estimate_reads_box_only (conf_thr margin_mm : Z) (D D' : matrix Q)
    (C C' : matrix Z) (H W : Z) (b : detection) :
  let '(x1, y1, x2, y2) := clamp_box H W b in
  (forall r c, in_box x1 y1 x2 y2 r c ->
     pixel D r c = pixel D' r c /\ pixel C r c = pixel C' r c) ->
  estimate conf_thr margin_mm D C x1 y1 x2 y2 =
  estimate conf_thr margin_mm D' C' x1 y1 x2 y2.
Proof.
  pose proof (clamp_box_nonneg H W b) as Hnn.
  destruct (clamp_box H W b) as [[[x1 y1] x2] y2].
  destruct Hnn as (Hx1 & Hy1 & Hx2 & Hy2). now apply estimate_local.
Qed.

Lemma estimate_reads_box_only_witness :
  estimate 30 250 scenario_depth scenario_conf 0 0 5 1 =
  estimate 30 250 [[1400; 1420; 1430; 1450; 1460; 77]; [5; 5; 5; 5; 5; 5]]%Q
    [[255; 255; 255; 255; 255; 0]; [9; 9; 9; 9; 9; 9]] 0 0 5 1.
Proof.
  apply (estimate_reads_box_only 30 250 scenario_depth
           [[1400; 1420; 1430; 1450; 1460; 77]; [5; 5; 5; 5; 5; 5]]%Q
           scenario_conf [[255; 255; 255; 255; 255; 0]; [9; 9; 9; 9; 9; 9]]
           2 6 (box_at 0 0 5 1 0)).
  intros r c [Hr Hc]. unfold clamp, py_int in Hr, Hc. simpl in Hr, Hc.
  destruct r as [| r]; [| lia].
  do 5 (destruct c as [| c]; [split; reflexivity |]). lia.
Defined.

Lemma clamp_box_in_frame (H W : Z) (b : detection) (r c : nat) :
  let '(x1, y1, x2, y2) := clamp_box H W b in
  in_box x1 y1 x2 y2 r c -> Z.of_nat r < H - 1 /\ Z.of_nat c < W - 1.
Proof.
  unfold clamp_box. destruct (xyxy b) as [[[x1 y1] x2] y2].
  unfold in_box, clamp. lia.
Qed.

(** X11: the last row and the last column of a frame are never read by the
    estimator: the far corner of a box is clamped to [H-1], [W-1] and the
    slice stops before it.  Two frames that differ only there give every
    detection the same estimate. *)
Theorem last_row_and_column_unused (conf_thr margin_mm : Z) (D D' : matrix Q)
    (C C' : matrix Z) (H W : Z) (b : detection) :
  let '(x1, y1, x2, y2) := clamp_box H W b in
  (forall r c, in_box x1 y1 x2 y2 r c ->
     Z.of_nat r < H - 1 /\ Z.of_nat c < W - 1) /\
  ((forall r c, Z.of_nat r < H - 1 -> Z.of_nat c < W - 1 ->
      pixel D r c = pixel D' r c /\ pixel C r c = pixel C' r c) ->
   estimate conf_thr margin_mm D C x1 y1 x2 y2 =
   estimate conf_thr margin_mm D' C' x1 y1 x2 y2).
Proof.
  pose proof (clamp_box_nonneg H W b) as Hnn.
  pose proof (clamp_box_in_frame H W b) as Hin.
  destruct (clamp_box H W b) as [[[x1 y1] x2] y2].
  destruct Hnn as (Hx1 & Hy1 & Hx2 & Hy2). split.
  - intros r c. apply Hin.
  - intros Hsame. apply estimate_local; try assumption.
    intros r c Hbox. destruct (Hin r c Hbox). now apply Hsame.
Qed.

Lemma last_row_and_column_unused_witness :
  estimate 30 250 scenario_depth scenario_conf 0 0 5 1 =
  estimate 30 250 [[1400; 1420; 1430; 1450; 1460; 77]; [5; 5; 5; 5; 5; 5]]%Q
    [[255; 255; 255; 255; 255; 0]; [9; 9; 9; 9; 9; 9]] 0 0 5 1.
Proof.
  apply (proj2 (last_row_and_column_unused 30 250 scenario_depth
           [[1400; 1420; 1430; 1450; 1460; 77]; [5; 5; 5; 5; 5; 5]]%Q
           scenario_conf [[255; 255; 255; 255; 255; 0]; [9; 9; 9; 9; 9; 9]]
           2 6 (box_at 0 0 9 9 0))).
  intros r c Hr Hc.
  destruct r as [| r]; [| lia].
  do 5 (destruct c as [| c]; [split; reflexivity |]). lia.
Defined.

(** X12: a detection that starts at or beyond the last column or row of the
    frame, or ends at or before column or row 0, is skipped, and so is
    every detection on a frame of one row or one column; a box that lies
    within the frame is left as it is by the clamp and is processed. *)
Theorem box_off_frame_skipped (H W : Z) (b : detection) :
  let '(x1, y1, x2, y2) := xyxy b in
  ((W - 1 <= py_int x1 \/ H - 1 <= py_int y1 \/ py_int x2 <= 0 \/ py_int y2 <= 0 \/
    W <= 1 \/ H <= 1) ->
   degenerate (clamp_box H W b) = true) /\
  (0 <= py_int x1 < py_int x2 -> py_int x2 <= W - 1 ->
   0 <= py_int y1 < py_int y2 -> py_int y2 <= H - 1 ->
   clamp_box H W b = (py_int x1, py_int y1, py_int x2, py_int y2) /\
   degenerate (clamp_box H W b) = false).
Proof.
  unfold clamp_box. destruct (xyxy b) as [[[x1 y1] x2] y2].
  unfold degenerate, clamp. split.
  - intros Hoff. apply orb_true_iff. rewrite !Z.leb_le. lia.
  - intros Hx Hx2 Hy Hy2.
    replace (Z.max 0 (Z.min (W - 1) (py_int x1))) with (py_int x1) by lia.
    replace (Z.max 0 (Z.min (W - 1) (py_int x2))) with (py_int x2) by lia.
    replace (Z.max 0 (Z.min (H - 1) (py_int y1))) with (py_int y1) by lia.
    replace (Z.max 0 (Z.min (H - 1) (py_int y2))) with (py_int y2) by lia.
    split; [reflexivity |]. apply orb_false_iff. rewrite !Z.leb_gt. lia.
Qed.

Lemma box_off_frame_skipped_witness :
  degenerate (clamp_box 180 240 (box_at 239 10 300 60 0)) = true /\
  clamp_box 180 240 (box_at 20 10 120 60 0) = (20, 10, 120, 60) /\
  degenerate (clamp_box 180 240 (box_at 20 10 120 60 0)) = false.
Proof.
  split.
  - apply (proj1 (box_off_frame_skipped 180 240 (box_at 239 10 300 60 0))).
    left. vm_compute. discriminate.
  - apply (proj2 (box_off_frame_skipped 180 240 (box_at 20 10 120 60 0)));
      vm_compute; try (split; [discriminate | reflexivity]); discriminate.
Defined.

(** ** The normalisation and the darkening *)






Lemma pixel_zip_with2 {A B C} (f : A -> B -> C) (a : matrix A) (b : matrix B)
    (i j : nat) :
  pixel (zip_with (zip_with f) a b) i j =
  match pixel a i j, pixel b i j with
  | Some x, Some y => Some (f x y)
  | _, _ => None
  end.
Proof.
  unfold pixel. rewrite lookup_zip_with.
  destruct (a !! i) as [r |]; simpl; [| reflexivity].
  destruct (b !! i) as [s |]; simpl.
  - rewrite lookup_zip_with. destruct (r !! j); simpl; [| reflexivity].
    destruct (s !! j); reflexivity.
  - destruct (r !! j); reflexivity.
Qed.

Lemma land_255 (x : Z) : 0 <= x <= 255 -> Z.land x 255 = x.
Proof.
  intros Hx. change 255 with (Z.ones 8). rewrite Z.land_ones by lia.
  apply Z.mod_small. change (2 ^ 8) with 256. lia.
Qed.

Section VisualFacts.

Variable medianBlur5 : matrix Z -> matrix Z.
Variable applyColorMap : matrix Z -> matrix bgr.

(** X14: the image handed to the detector is the colour-mapped depth
    darkened by the filtered validity mask: a pixel is black where the
    filtered mask is 0, and is the colour map's pixel (for 8-bit channels)
    where the filtered mask is 1. *)
Theorem visual_darkened (D : matrix Q) (C : matrix Z) (r : Z) (i j : nat)
    (p : bgr) (m : Z) :
  pixel (applyColorMap
           (medianBlur5 (scale_all (255 / inject_Z r)
                           (clip_all 0 (inject_Z r) (gated CONF_THR D C))))) i j
    = Some p ->
  pixel (medianBlur5 (conf_mask CONF_THR C)) i j = Some m ->
  (m = 0 -> pixel (visual medianBlur5 applyColorMap D C r) i j = Some (0, 0, 0)) /\
  (m = 1 ->
   (let '(b, g, r) := p in 0 <= b <= 255 /\ 0 <= g <= 255 /\ 0 <= r <= 255) ->
   pixel (visual medianBlur5 applyColorMap D C r) i j = Some p).
Proof.
  intros Hp Hm. unfold visual. rewrite pixel_zip_with2, Hp.
  unfold gray3. rewrite pixel_map2, Hm. simpl.
  destruct p as [[b g] r0]. split.
  - intros ->. simpl. now rewrite !Z.land_0_r.
  - intros -> (Hb & Hg & Hr0). simpl. now rewrite !land_255.
Qed.

End VisualFacts.

Lemma visual_darkened_witness :
  pixel (visual no_blur gray_map scenario_depth low_conf 4000) 0 1 = Some (0, 0, 0) /\
  pixel (visual no_blur gray_map scenario_depth scenario_conf 4000) 0 1
    = Some (90, 90, 90).
Proof.
  split.
  - apply (proj1 (visual_darkened no_blur gray_map scenario_depth low_conf 4000 0 1
                    (0, 0, 0) 0 eq_refl eq_refl)).
    reflexivity.
  - apply (proj2 (visual_darkened no_blur gray_map scenario_depth scenario_conf 4000
                    0 1 (90, 90, 90) 1 eq_refl eq_refl));
      [reflexivity | lia].
Defined.

(** ** A frame, from its buffers to its output *)

Lemma world_eta (w : world) : w = {| heap := heap w ++ []; out := out w ++ [] |}.
Proof. destruct w. simpl. now rewrite !app_nil_r. Qed.

Lemma box_body_trace (ld lc : loc) (H W : Z) (b : detection) (w : world)
    (D : matrix Q) (C : matrix Z) :
  heap w !! ld = Some (ArrF D) -> heap w !! lc = Some (ArrI C) ->
  exists ext,
    box_body ld lc H W b w =
    match box_trace D C H W b with
    | (t, None) => Done tt {| heap := heap w ++ ext; out := out w ++ t |}
    | (t, Some e) => Fail e {| heap := heap w ++ ext; out := out w ++ t |}
    end.
Proof.
  intros Hd Hc. unfold box_trace.
  destruct (degenerate (clamp_box H W b)) eqn:Hdeg.
  - exists []. rewrite (box_body_degenerate ld lc H W b w Hdeg).
    destruct (clamp_box H W b) as [[[x1 y1] x2] y2]. rewrite Hdeg.
    f_equal. apply world_eta.
  - pose proof (box_body_run ld lc H W b w D C Hd Hc Hdeg) as Hrun.
    destruct (clamp_box H W b) as [[[x1 y1] x2] y2]. rewrite Hdeg.
    cbv zeta in Hrun. eexists. rewrite Hrun.
    destruct (classify (py_int (cls b)) (estimate CONF_THR MARGIN_MM D C x1 y1 x2 y2));
      [rewrite <- !app_assoc |]; reflexivity.
Qed.

Lemma for_each_trace (ld lc : loc) (H W : Z) (bs : list detection) (w : world)
    (D : matrix Q) (C : matrix Z) :
  heap w !! ld = Some (ArrF D) -> heap w !! lc = Some (ArrI C) ->
  exists ext,
    for_each bs (box_body ld lc H W) w =
    match boxes_trace D C H W bs with
    | (t, None) => Done tt {| heap := heap w ++ ext; out := out w ++ t |}
    | (t, Some e) => Fail e {| heap := heap w ++ ext; out := out w ++ t |}
    end.
Proof.
  revert w. induction bs as [| b bs IH]; intros w Hd Hc.
  - exists []. simpl. unfold ret. f_equal. apply world_eta.
  - simpl. destruct (box_body_trace ld lc H W b w D C Hd Hc) as [ext Hb].
    unfold bind. rewrite Hb.
    destruct (box_trace D C H W b) as [t [e |]]; [eauto |].
    destruct (IH {| heap := heap w ++ ext; out := out w ++ t |}) as [ext' Hrest];
      [now apply lookup_app_l_Some | now apply lookup_app_l_Some |].
    rewrite Hrest. cbn [heap out].
    destruct (boxes_trace D C H W bs) as [t' [e |]];
      exists (ext ++ ext'); now rewrite <- !app_assoc.
Qed.

(** A trace without exception is the traces of the boxes, one after the
    other. *)
Lemma boxes_trace_done (D : matrix Q) (C : matrix Z) (H W : Z) (bs : list detection)
    (t : list event) :
  boxes_trace D C H W bs = (t, None) ->
  t = flat_map (fun b => fst (box_trace D C H W b)) bs /\
  Forall (fun b => snd (box_trace D C H W b) = None) bs.
Proof.
  revert t. induction bs as [| b bs IH]; intros t Ht; simpl in *.
  - inversion Ht. split; [reflexivity | constructor].
  - destruct (box_trace D C H W b) as [t1 [e |]] eqn:Eb; [discriminate |].
    destruct (boxes_trace D C H W bs) as [t2 r]. inversion Ht; subst.
    destruct (IH t2 eq_refl) as [-> Hall]. split; [reflexivity |].
    constructor; [now rewrite Eb | exact Hall].
Qed.

(** A detection that raises ends the trace: what follows it adds nothing. *)
Lemma boxes_trace_raise (D : matrix Q) (C : matrix Z) (H W : Z)
    (pre rest : list detection) (b : detection) (t tb : list event) (e : exn) :
  boxes_trace D C H W pre = (t, None) ->
  box_trace D C H W b = (tb, Some e) ->
  boxes_trace D C H W (pre ++ b :: rest) = (t ++ tb, Some e).
Proof.
  revert t. induction pre as [| p pre IH]; intros t Hpre Hb; simpl in *.
  - inversion Hpre. now rewrite Hb.
  - destruct (box_trace D C H W p) as [t1 [e1 |]]; [discriminate |].
    destruct (boxes_trace D C H W pre) as [t2 r]. inversion Hpre; subst.
    rewrite (IH t2 eq_refl Hb). now rewrite app_assoc.
Qed.

Lemma alerts_app (l1 l2 : list event) : alerts (l1 ++ l2) = alerts l1 ++ alerts l2.
Proof. unfold alerts. apply omap_app. Qed.

Lemma alert_events_at_most_one (t : AlertTier) (d : option Q) :
  (length (alerts (alert_events t d)) <= 1)%nat /\
  (alerts (alert_events t d) = [] <-> t = TierNone).
Proof. destruct t; simpl; split; try lia; split; congruence. Qed.

Lemma box_trace_alerts (D : matrix Q) (C : matrix Z) (H W : Z) (b : detection) :
  (length (alerts (fst (box_trace D C H W b))) <= 1)%nat.
Proof.
  unfold box_trace. destruct (clamp_box H W b) as [[[x1 y1] x2] y2].
  destruct (degenerate (x1, y1, x2, y2)); [simpl; lia |].
  destruct (classify _ _) as [t | e]; [| simpl; lia].
  cbn [fst]. rewrite !alerts_app. simpl. rewrite app_nil_r.
  apply alert_events_at_most_one.
Qed.

Lemma frame_tail_alerts (bs : list detection) : alerts (frame_tail bs) = [].
Proof. unfold frame_tail. now destruct (0 <? length bs)%nat. Qed.

Lemma same_off_low_shape (thr : Z) (D D' : matrix Q) (C : matrix Z) :
  same_off_low thr D D' C -> shape D = shape D'.
Proof.
  unfold same_off_low, shape. intros H.
  rewrite (Forall3_length_lm _ _ _ _ H). f_equal. f_equal.
  destruct H as [| rd rd' rc D D' C Hrow _]; [reflexivity |]. simpl.
  exact (Forall3_length_lm _ _ _ _ Hrow).
Qed.

Lemma estimate_same_off_low (thr margin_mm : Z) (D D' : matrix Q) (C : matrix Z)
    (x1 y1 x2 y2 : Z) :
  same_off_low thr D D' C ->
  estimate thr margin_mm D C x1 y1 x2 y2 = estimate thr margin_mm D' C x1 y1 x2 y2.
Proof.
  intros Hs. unfold estimate.
  now rewrite (roi_valid_same thr _ _ _ (same_off_low_slice2 thr D D' C x1 y1 x2 y2 Hs)).
Qed.

Lemma boxes_trace_same_off_low (D D' : matrix Q) (C : matrix Z) (H W : Z)
    (bs : list detection) :
  same_off_low CONF_THR D D' C ->
  boxes_trace D C H W bs = boxes_trace D' C H W bs.
Proof.
  intros Hs. induction bs as [| b bs IH]; simpl; [reflexivity |].
  rewrite IH. unfold box_trace.
  destruct (clamp_box H W b) as [[[x1 y1] x2] y2].
  now rewrite (estimate_same_off_low CONF_THR MARGIN_MM D D' C x1 y1 x2 y2 Hs).
Qed.

Section FrameFacts.

Variable medianBlur5 : matrix Z -> matrix Z.
Variable applyColorMap : matrix Z -> matrix bgr.
Variable rectangle : matrix bgr -> matrix bgr.
Variable detect : matrix bgr -> list detection.
Variable plot : matrix bgr -> list detection -> matrix bgr.

Abbreviation frame_body' := (frame_body medianBlur5 applyColorMap rectangle detect plot).
Abbreviation visual' := (visual medianBlur5 applyColorMap).
Abbreviation loop' := (loop medianBlur5 applyColorMap rectangle detect plot).
Abbreviation run' := (run medianBlur5 applyColorMap rectangle detect plot).

Lemma frame_body_trace (r : Z) (ld lc : loc) (w : world) (D : matrix Q) (C : matrix Z) :
  heap w !! ld = Some (ArrF D) -> heap w !! lc = Some (ArrI C) -> r <> 0 ->
  observed (frame_body' r ld lc w) =
  match boxes_trace D C (fst (shape D)) (snd (shape D)) (detect (visual' D C r)) with
  | (t, None) => (out w ++ t ++ frame_tail (detect (visual' D C r)), None)
  | (t, Some e) => (out w ++ t, Some e)
  end.
Proof.
  intros Hd Hc Hr. unfold frame_body.
  rewrite (bind_Done _ _ _ _ _ (preprocess_run medianBlur5 applyColorMap
                                  ld lc r w D C Hd Hc Hr)).
  erewrite bind_Done
    by (eapply loadF_run; cbn [heap]; apply lookup_app_l_Some; eassumption).
  destruct (shape D) as [H W] eqn:Es. cbn [fst snd].
  erewrite bind_Done
    by (eapply loadBGR_run; cbn [heap]; apply lookup_new; reflexivity).
  set (bs := detect (visual' D C r)).
  erewrite bind_Done by reflexivity. cbn [heap out].
  set (w1 := {| heap := _; out := out w |}).
  destruct (for_each_trace ld lc H W bs w1 D C) as [ext Hfor].
  { subst w1. cbn [heap]. rewrite <- app_assoc. now apply lookup_app_l_Some. }
  { subst w1. cbn [heap]. rewrite <- app_assoc. now apply lookup_app_l_Some. }
  unfold bind at 1. rewrite Hfor.
  destruct (boxes_trace D C H W bs) as [t [e |]]; [reflexivity |].
  assert (Hif : forall w0,
    (if (0 <? length bs)%nat then emit (ImWrite "detections.jpg") else ret tt) w0 =
    Done tt {| heap := heap w0;
               out := out w0 ++ (if (0 <? length bs)%nat
                                 then [ImWrite "detections.jpg"] else []) |}).
  { intros w0. destruct (0 <? length bs)%nat; [reflexivity |].
    unfold ret. destruct w0. simpl. now rewrite app_nil_r. }
  rewrite (bind_Done _ _ _ _ _ (Hif _)). cbn [heap out].
  erewrite bind_Done.
  2:{ eapply loadBGR_run. subst w1. cbn [heap]. rewrite <- !app_assoc.
      apply lookup_new. reflexivity. }
  unfold bind, store, emit. cbn [heap out observed]. subst w1. cbn [out].
  unfold frame_tail. fold bs. now rewrite <- !app_assoc.
Qed.

(** With a range setting of zero a frame ends at the division, before the
    detector is called. *)
Lemma frame_body_zero (ld lc : loc) (w : world) (D : matrix Q) (C : matrix Z) :
  heap w !! ld = Some (ArrF D) -> heap w !! lc = Some (ArrI C) ->
  observed (frame_body' 0 ld lc w) = (out w, Some ZeroDivisionError).
Proof.
  intros Hd Hc. unfold frame_body, bind.
  now rewrite (preprocess_run_zero medianBlur5 applyColorMap ld lc w D C Hd Hc).
Qed.

Lemma box_trace_not_closing (D : matrix Q) (C : matrix Z) (H W : Z) (b : detection) :
  Forall (fun ev => frame_closing ev = false) (fst (box_trace D C H W b)).
Proof.
  unfold box_trace. destruct (clamp_box H W b) as [[[x1 y1] x2] y2].
  destruct (degenerate (x1, y1, x2, y2)); [constructor |].
  destruct (classify _ _) as [t | e]; cbn [fst]; [| repeat constructor].
  destruct t; repeat constructor.
Qed.

Lemma boxes_trace_not_closing (D : matrix Q) (C : matrix Z) (H W : Z)
    (bs : list detection) :
  Forall (fun ev => frame_closing ev = false) (fst (boxes_trace D C H W bs)).
Proof.
  induction bs as [| b bs IH]; simpl; [constructor |].
  pose proof (box_trace_not_closing D C H W b) as Hb.
  destruct (box_trace D C H W b) as [t [e |]]; [exact Hb |].
  destruct (boxes_trace D C H W bs) as [t' r]. cbn [fst] in *.
  apply Forall_app. split; assumption.
Qed.

(** X15: a frame whose detections raise nothing outputs what they output,
    then writes [detections.jpg] if the detector reported at least one box
    (skipped boxes count), then draws, writes one video frame and releases
    the camera frame.  A frame in which a detection raises ends there:
    nothing of that closing sequence is output, so no video frame is
    written and the camera frame is not released. *)
Theorem frame_output (r : Z) (ld lc : loc) (w : world) (D : matrix Q) (C : matrix Z) :
  heap w !! ld = Some (ArrF D) -> heap w !! lc = Some (ArrI C) -> r <> 0 ->
  exists t ending,
    boxes_trace D C (fst (shape D)) (snd (shape D)) (detect (visual' D C r))
      = (t, ending) /\
    Forall (fun ev => frame_closing ev = false) t /\
    observed (frame_body' r ld lc w) =
      match ending with
      | None =>
          (out w ++ t ++
           (if (0 <? length (detect (visual' D C r)))%nat
            then [ImWrite "detections.jpg"] else []) ++
           [DrawRectangle; OutWrite; CamReleaseFrame], None)
      | Some e => (out w ++ t, Some e)
      end.
Proof.
  intros Hd Hc Hr.
  pose proof (frame_body_trace r ld lc w D C Hd Hc Hr) as Hobs.
  pose proof (boxes_trace_not_closing D C (fst (shape D)) (snd (shape D))
                (detect (visual' D C r))) as Hnc.
  destruct (boxes_trace D C (fst (shape D)) (snd (shape D)) (detect (visual' D C r)))
    as [t ending].
  exists t, ending. split; [reflexivity |]. split; [exact Hnc |].
  rewrite Hobs. now destruct ending.
Qed.

(** X16: a frame that completes speaks the alerts of its detections in the
    detector's order and nothing else; a detection speaks at most once, so
    a frame speaks at most as many alerts as it has detections. *)
Theorem frame_alerts (r : Z) (ld lc : loc) (w : world) (D : matrix Q) (C : matrix Z)
    (tr : list event) :
  heap w !! ld = Some (ArrF D) -> heap w !! lc = Some (ArrI C) -> r <> 0 ->
  observed (frame_body' r ld lc w) = (tr, None) ->
  alerts tr =
    alerts (out w) ++
    flat_map (fun b => alerts (fst (box_trace D C (fst (shape D)) (snd (shape D)) b)))
      (detect (visual' D C r)) /\
  (length (alerts tr) <= length (alerts (out w)) + length (detect (visual' D C r)))%nat.
Proof.
  intros Hd Hc Hr Hobs.
  rewrite (frame_body_trace r ld lc w D C Hd Hc Hr) in Hobs.
  set (bs := detect (visual' D C r)) in *.
  set (H := fst (shape D)) in *. set (W := snd (shape D)) in *.
  destruct (boxes_trace D C H W bs) as [t [e |]] eqn:Et; [discriminate |].
  inversion Hobs; subst tr. clear Hobs.
  destruct (boxes_trace_done D C H W bs t Et) as [-> _].
  rewrite !alerts_app, frame_tail_alerts, app_nil_r.
  assert (E : alerts (flat_map (fun b => fst (box_trace D C H W b)) bs) =
              flat_map (fun b => alerts (fst (box_trace D C H W b))) bs).
  { clear. induction bs as [| b bs IH]; [reflexivity |].
    simpl. now rewrite alerts_app, IH. }
  rewrite E. split; [reflexivity |]. rewrite length_app.
  apply Nat.add_le_mono_l. clear.
  induction bs as [| b bs IH]; simpl; [lia |].
  rewrite length_app. pose proof (box_trace_alerts D C H W b). lia.
Qed.

(** X17: depth samples under a confidence below the threshold do not reach
    the output: two frames with the same confidence whose depths differ
    only at such samples make the frame cycle output the same events and
    end in the same way, whatever the range setting. *)
Theorem frame_ignores_low_confidence (r : Z) (ld lc ld' lc' : loc) (w w' : world)
    (D D' : matrix Q) (C : matrix Z) :
  heap w !! ld = Some (ArrF D) -> heap w !! lc = Some (ArrI C) ->
  heap w' !! ld' = Some (ArrF D') -> heap w' !! lc' = Some (ArrI C) ->
  out w = out w' ->
  same_off_low CONF_THR D D' C ->
  observed (frame_body' r ld lc w) = observed (frame_body' r ld' lc' w').
Proof.
  intros Hd Hc Hd' Hc' Hout Hs. destruct (Z.eq_dec r 0) as [-> | Hr].
  - rewrite (frame_body_zero ld lc w D C Hd Hc).
    rewrite (frame_body_zero ld' lc' w' D' C Hd' Hc'). now rewrite Hout.
  - rewrite (frame_body_trace r ld lc w D C Hd Hc Hr).
    rewrite (frame_body_trace r ld' lc' w' D' C Hd' Hc' Hr).
    assert (Ev : visual' D C r = visual' D' C r)
      by (unfold visual; now rewrite (gated_same CONF_THR D D' C Hs)).
    rewrite <- Ev, <- (same_off_low_shape CONF_THR D D' C Hs), <- Hout.
    now rewrite (boxes_trace_same_off_low D D' C _ _ _ Hs).
Qed.

(** X18: a detection without estimate hides the detections after it: when
    the boxes before it raise nothing and its own box holds no valid pixel,
    the frame ends with [TypeError] right after printing its class id, and
    the boxes that follow are never examined, whatever they hold. *)
Theorem no_estimate_hides_later_detections (r : Z) (ld lc : loc) (w : world)
    (D : matrix Q) (C : matrix Z) (pre rest : list detection) (b : detection)
    (t : list event) :
  heap w !! ld = Some (ArrF D) -> heap w !! lc = Some (ArrI C) -> r <> 0 ->
  detect (visual' D C r) = pre ++ b :: rest ->
  boxes_trace D C (fst (shape D)) (snd (shape D)) pre = (t, None) ->
  degenerate (clamp_box (fst (shape D)) (snd (shape D)) b) = false ->
  (let '(x1, y1, x2, y2) := clamp_box (fst (shape D)) (snd (shape D)) b in
   estimate CONF_THR MARGIN_MM D C x1 y1 x2 y2 = None) ->
  observed (frame_body' r ld lc w) =
  (out w ++ t ++ [PrintClsId (py_int (cls b))], Some TypeError).
Proof.
  intros Hd Hc Hr Hbs Hpre Hdeg Hnone.
  rewrite (frame_body_trace r ld lc w D C Hd Hc Hr), Hbs.
  assert (Hb : box_trace D C (fst (shape D)) (snd (shape D)) b =
               ([PrintClsId (py_int (cls b))], Some TypeError)).
  { unfold box_trace.
    destruct (clamp_box (fst (shape D)) (snd (shape D)) b) as [[[x1 y1] x2] y2].
    now rewrite Hdeg, Hnone, classify_None. }
  now rewrite (boxes_trace_raise D C _ _ pre rest b t _ _ Hpre Hb).
Qed.

(** ** The loop and the process, on the remaining paths *)

Lemma loop_frame_step (r : Z) (c : cycle) (cs : list cycle) (w : world)
    (D : matrix Q) (C : matrix Z) :
  frame c = Some (D, C) ->
  loop' r (c :: cs) w =
  bind (frame_body' r (length (heap w)) (S (length (heap w))))
    (fun _ => bind (wait_key c)
                (fun k => if k =? ord_q then ret true else loop' r cs))
    {| heap := heap w ++ [ArrF D; ArrI C]; out := out w |}.
Proof.
  intros Hf. simpl. unfold request_frame. rewrite Hf.
  unfold bind at 1 2 3. unfold alloc, ret. cbn [heap out].
  rewrite <- app_assoc, length_app. cbn [length app]. rewrite Nat.add_1_r.
  reflexivity.
Qed.

(** X19: what is not a return from [main]: an exception other than
    [KeyboardInterrupt] that leaves the loop ends the process with status 1
    and nothing is output after the point of failure, so the camera is
    neither stopped nor closed and the video is not released; and as long
    as no [q] is read the process keeps running. *)
Theorem uncaught_exception_status (e : env) (w' : world) :
  open_ret e = 0 -> start_ret e = 0 ->
  (forall ex, ex <> KeyboardInterrupt ->
     loop' (range e) (cycles e) (started e empty_world) = Fail ex w' ->
     run' e = (Exited 1, out w')) /\
  (loop' (range e) (cycles e) (started e empty_world) = Done false w' ->
   run' e = (Running, out w')).
Proof.
  intros Ho Hs.
  pose proof (main_started medianBlur5 applyColorMap rectangle detect plot
                e empty_world Ho Hs) as Hm.
  split.
  - intros ex Hex Hl. rewrite Hl in Hm. unfold run. rewrite Hm.
    destruct ex; try reflexivity. congruence.
  - intros Hl. rewrite Hl in Hm. unfold run. now rewrite Hm.
Qed.

(** X20: with a range setting of 0 the first frame the camera delivers ends
    the process: the division of line 164 raises before the detector is
    called, nothing is output after the start-up lines, and the status
    is 1. *)
Theorem zero_range_ends_run (e : env) (pre rest : list cycle) (c : cycle)
    (D : matrix Q) (C : matrix Z) :
  open_ret e = 0 -> start_ret e = 0 -> range e = 0 ->
  cycles e = pre ++ c :: rest -> Forall idle pre -> frame c = Some (D, C) ->
  run' e = (Exited 1, started_output e).
Proof.
  intros Ho Hs Hr Hcs Hpre Hf.
  pose proof (main_started medianBlur5 applyColorMap rectangle detect plot
                e empty_world Ho Hs) as Hm.
  rewrite Hcs, Hr in Hm.
  rewrite (loop_idle_prefix medianBlur5 applyColorMap rectangle detect plot
             0 pre (c :: rest) _ Hpre) in Hm.
  rewrite (loop_frame_step 0 c rest _ D C Hf) in Hm.
  set (w0 := {| heap := heap (started e empty_world) ++ [ArrF D; ArrI C];
                out := out (started e empty_world) |}) in *.
  pose proof (frame_body_zero (length (heap (started e empty_world)))
                (S (length (heap (started e empty_world)))) w0 D C
                eq_refl eq_refl) as Hz.
  unfold bind at 1 in Hm.
  destruct (frame_body' 0 _ _ w0) as [[] w1 | ex w1]; [discriminate |].
  inversion Hz; subst. unfold run. rewrite Hm. reflexivity.
Qed.

(** X21: turns in which the camera delivers no frame and no [q] is read
    change nothing and the loop goes on with the turns after them; once [q]
    is read the loop ends and the rest of the environment is never
    consulted. *)
Theorem idle_turns_and_quit (r : Z) (w : world) :
  (forall pre cs, Forall idle pre -> loop' r (pre ++ cs) w = loop' r cs w) /\
  (forall c cs cs', key c = Key ord_q -> loop' r (c :: cs) w = loop' r (c :: cs') w).
Proof.
  split.
  - intros pre cs Hpre. now apply loop_idle_prefix.
  - intros c cs cs' Hk. simpl. unfold bind.
    destruct (request_frame c w) as [f w1 | ex w1]; [| reflexivity].
    destruct (match f with Some (ld, lc) => frame_body' r ld lc | None => ret tt end w1)
      as [[] w2 | ex w2]; [| reflexivity].
    unfold wait_key. rewrite Hk. reflexivity.
Qed.

End FrameFacts.

(** ** The frame and run facts on the example instance *)

Lemma frame_output_witness :
  exists t ending,
    boxes_trace scenario_depth scenario_conf (fst (shape scenario_depth))
      (snd (shape scenario_depth))
      (fixed_detector [box_at 50 50 50 80 0; box_at 0 0 5 1 0]
         (visual no_blur gray_map scenario_depth scenario_conf 4000))
      = (t, ending) /\
    Forall (fun ev => frame_closing ev = false) t /\
    observed
      (frame_body no_blur gray_map no_rectangle
         (fixed_detector [box_at 50 50 50 80 0; box_at 0 0 5 1 0]) no_plot
         4000 0%nat 1%nat
         {| heap := [ArrF scenario_depth; ArrI scenario_conf]; out := [] |}) =
      match ending with
      | None =>
          ([] ++ t ++
           (if (0 <? length
                   (fixed_detector [box_at 50 50 50 80 0; box_at 0 0 5 1 0]
                      (visual no_blur gray_map scenario_depth scenario_conf 4000)))%nat
            then [ImWrite "detections.jpg"] else []) ++
           [DrawRectangle; OutWrite; CamReleaseFrame], None)
      | Some e => ([] ++ t, Some e)
      end.
Proof.
  apply (frame_output no_blur gray_map no_rectangle
           (fixed_detector [box_at 50 50 50 80 0; box_at 0 0 5 1 0]) no_plot
           4000 0%nat 1%nat
           {| heap := [ArrF scenario_depth; ArrI scenario_conf]; out := [] |}
           scenario_depth scenario_conf);
    [reflexivity | reflexivity | discriminate].
Defined.

Lemma frame_alerts_witness :
  alerts
    (fst (observed
       (frame_body no_blur gray_map no_rectangle
          (fixed_detector [box_at 50 50 50 80 0; box_at 0 0 5 1 0]) no_plot
          4000 0%nat 1%nat
          {| heap := [ArrF scenario_depth; ArrI scenario_conf]; out := [] |}))) =
  alerts [] ++
  flat_map
    (fun b => alerts (fst (box_trace scenario_depth scenario_conf
                             (fst (shape scenario_depth))
                             (snd (shape scenario_depth)) b)))
    (fixed_detector [box_at 50 50 50 80 0; box_at 0 0 5 1 0]
       (visual no_blur gray_map scenario_depth scenario_conf 4000)).
Proof.
  apply (frame_alerts no_blur gray_map no_rectangle
           (fixed_detector [box_at 50 50 50 80 0; box_at 0 0 5 1 0]) no_plot
           4000 0%nat 1%nat
           {| heap := [ArrF scenario_depth; ArrI scenario_conf]; out := [] |}
           scenario_depth scenario_conf);
    [reflexivity | reflexivity | discriminate | vm_compute; reflexivity].
Defined.

Lemma frame_ignores_low_confidence_witness :
  observed
    (frame_body no_blur gray_map no_rectangle (fixed_detector [box_at 0 0 5 1 0])
       no_plot 4000 0%nat 1%nat
       {| heap := [ArrF scenario_depth; ArrI low_conf]; out := [] |}) =
  observed
    (frame_body no_blur gray_map no_rectangle (fixed_detector [box_at 0 0 5 1 0])
       no_plot 4000 1%nat 0%nat
       {| heap := [ArrI low_conf;
                   ArrF [[1; 2; 3; 4; 5; 6]; [7; 8; 9; 10; 11; 12]]%Q];
          out := [] |}).
Proof.
  apply (frame_ignores_low_confidence no_blur gray_map no_rectangle
           (fixed_detector [box_at 0 0 5 1 0]) no_plot 4000
           0%nat 1%nat 1%nat 0%nat
           {| heap := [ArrF scenario_depth; ArrI low_conf]; out := [] |}
           {| heap := [ArrI low_conf;
                       ArrF [[1; 2; 3; 4; 5; 6]; [7; 8; 9; 10; 11; 12]]%Q];
              out := [] |}
           scenario_depth [[1; 2; 3; 4; 5; 6]; [7; 8; 9; 10; 11; 12]]%Q low_conf);
    try reflexivity.
  repeat constructor; right; reflexivity.
Defined.

Lemma no_estimate_hides_later_detections_witness :
  observed
    (frame_body no_blur gray_map no_rectangle
       (fixed_detector [box_at 0 0 2 1 0; box_at 2 0 5 1 0]) no_plot
       4000 0%nat 1%nat
       {| heap := [ArrF [[400; 400; 300; 300; 300; 0]; [0; 0; 0; 0; 0; 0]]%Q;
                   ArrI [[10; 10; 255; 255; 255; 255]; [0; 0; 0; 0; 0; 0]]];
          out := [] |}) =
  ([] ++ [] ++ [PrintClsId (py_int (cls (box_at 0 0 2 1 0)))], Some TypeError).
Proof.
  apply (no_estimate_hides_later_detections no_blur gray_map no_rectangle
           (fixed_detector [box_at 0 0 2 1 0; box_at 2 0 5 1 0]) no_plot
           4000 0%nat 1%nat
           {| heap := [ArrF [[400; 400; 300; 300; 300; 0]; [0; 0; 0; 0; 0; 0]]%Q;
                       ArrI [[10; 10; 255; 255; 255; 255]; [0; 0; 0; 0; 0; 0]]];
              out := [] |}
           [[400; 400; 300; 300; 300; 0]; [0; 0; 0; 0; 0; 0]]%Q
           [[10; 10; 255; 255; 255; 255]; [0; 0; 0; 0; 0; 0]]
           [] [box_at 2 0 5 1 0] (box_at 0 0 2 1 0) []);
    try reflexivity.
  discriminate.
Defined.

(** The box hidden in the example above is one that, taken alone, raises
    the stop alert. *)
Example hidden_detection_is_critical :
  alerts
    (fst (observed
       (frame_body no_blur gray_map no_rectangle
          (fixed_detector [box_at 2 0 5 1 0]) no_plot 4000 0%nat 1%nat
          {| heap := [ArrF [[400; 400; 300; 300; 300; 0]; [0; 0; 0; 0; 0; 0]]%Q;
                      ArrI [[10; 10; 255; 255; 255; 255]; [0; 0; 0; 0; 0; 0]]];
             out := [] |}))) =
  ["Stop, obstacle very close"%string].
Proof. vm_compute. reflexivity. Qed.

Lemma uncaught_exception_status_witness :
  exists w',
    example_run [box_at 0 0 5 1 0] (one_frame scenario_depth low_conf ord_q) =
    (Exited 1, out w').
Proof.
  eexists.
  apply (proj1 (uncaught_exception_status no_blur gray_map no_rectangle
                  (fixed_detector [box_at 0 0 5 1 0]) no_plot
                  (one_frame scenario_depth low_conf ord_q) _ eq_refl eq_refl)
           TypeError); [discriminate | reflexivity].
Defined.

Lemma zero_range_ends_run_witness :
  example_run [box_at 0 0 5 1 0]
    {| open_ret := 0; start_ret := 0; range := 0; vga := false;
       cycles := [ {| frame := None; key := Key 32 |};
                   {| frame := Some (scenario_depth, scenario_conf); key := Key 32 |} ] |} =
  (Exited 1,
   started_output
     {| open_ret := 0; start_ret := 0; range := 0; vga := false;
        cycles := [ {| frame := None; key := Key 32 |};
                    {| frame := Some (scenario_depth, scenario_conf);
                       key := Key 32 |} ] |}).
Proof.
  apply (zero_range_ends_run no_blur gray_map no_rectangle
           (fixed_detector [box_at 0 0 5 1 0]) no_plot
           {| open_ret := 0; start_ret := 0; range := 0; vga := false;
              cycles := [ {| frame := None; key := Key 32 |};
                          {| frame := Some (scenario_depth, scenario_conf);
                             key := Key 32 |} ] |}
           [ {| frame := None; key := Key 32 |} ] []
           {| frame := Some (scenario_depth, scenario_conf); key := Key 32 |}
           scenario_depth scenario_conf); try reflexivity.
  constructor; [| constructor].
  split; [reflexivity |]. exists 32. split; [reflexivity | discriminate].
Defined.

Lemma idle_turns_and_quit_witness :
  loop no_blur gray_map no_rectangle (fixed_detector []) no_plot 4000
    ([ {| frame := None; key := Key 32 |} ] ++
     [ {| frame := Some (scenario_depth, scenario_conf); key := Key ord_q |};
       {| frame := None; key := CtrlC |} ]) empty_world =
  loop no_blur gray_map no_rectangle (fixed_detector []) no_plot 4000
    [ {| frame := Some (scenario_depth, scenario_conf); key := Key ord_q |} ]
    empty_world.
Proof.
  destruct (idle_turns_and_quit no_blur gray_map no_rectangle (fixed_detector [])
              no_plot 4000 empty_world) as [Hidle Hquit].
  rewrite Hidle.
  - apply Hquit. reflexivity.
  - constructor; [| constructor].
    split; [reflexivity |]. exists 32. split; [reflexivity | discriminate].
Defined.
